(** * fbref-scrapy: the configuration reconciliation helpers

    A shallow embedding of [fbref_scrapy/helpers.py] and of the
    [FbrefConfig] class of [fbref_scrapy/config.py], followed by the
    properties of category discovery, variable deduplication and the
    added/removed deltas.

    Python values are embedded as follows.
    - [str] is [string]; a [list] is a [list].
    - A [dict] is an association list in insertion order with pairwise
      distinct keys ([dict_wf]); ranks are integers ([Z]).
    - A [set] is a duplicate-free list in its iteration order.  Python
      leaves that order unspecified, so it is a parameter ([SetOrder]).
    - A call either returns or raises: [result]. *)

From Stdlib Require Import String Ascii.
From Stdlib Require Import List ZArith Lia Bool Arith Permutation Sorted.
From Equations Require Import Equations.
Import ListNotations.

Open Scope string_scope.
Open Scope list_scope.

(** ** Python runtime model *)

Module Py.

(** The two messages the helpers pass to [Exception(...)].  The second one
    is rendered from a set of categories; the set is kept as payload. *)
Inductive message : Type :=
| NoValidStatsTables
| NoAssignedRanks (named : list string).

Inductive exception : Type :=
| AttributeError
| IndexError
| KeyError (key : string)
| Exception (msg : message).

Inductive result (A : Type) : Type :=
| Ok (a : A)
| Raise (e : exception).
Arguments Ok {A} a.
Arguments Raise {A} e.

Definition bind {A B : Type} (c : result A) (k : A -> result B) : result B :=
  match c with
  | Ok a => k a
  | Raise e => Raise e
  end.

(** [x in l] on a list of strings. *)
Definition mem (x : string) (l : list string) : bool :=
  existsb (String.eqb x) l.

(** [l.remove(x)]: drops the first occurrence. *)
Fixpoint remove_first (x : string) (l : list string) : list string :=
  match l with
  | [] => []
  | y :: t => if String.eqb x y then t else y :: remove_first x t
  end.

(** The truth value of a list, dict or set: it is not empty. *)
Definition truthy {A : Type} (l : list A) : bool :=
  match l with
  | [] => false
  | _ :: _ => true
  end.

(** [l.count(x)]. *)
Definition count (x : string) (l : list string) : nat :=
  List.length (filter (String.eqb x) l).

(** *** dict *)

Definition dict (V : Type) : Type := list (string * V).

Definition keys {V : Type} (d : dict V) : list string := map fst d.
Definition values {V : Type} (d : dict V) : list V := map snd d.

Definition dict_wf {V : Type} (d : dict V) : Prop := NoDup (keys d).

(** [d.get(k)], [None] when the key is missing. *)
Fixpoint dict_get {V : Type} (d : dict V) (k : string) : option V :=
  match d with
  | [] => None
  | (k', v) :: t => if String.eqb k k' then Some v else dict_get t k
  end.

(** [d[k]], raising [KeyError]. *)
Definition getitem {V : Type} (d : dict V) (k : string) : result V :=
  match dict_get d k with
  | Some v => Ok v
  | None => Raise (KeyError k)
  end.

(** [d[k] = v]: a known key keeps its position, a new one goes last. *)
Fixpoint dict_set {V : Type} (d : dict V) (k : string) (v : V) : dict V :=
  match d with
  | [] => [(k, v)]
  | (k', v') :: t =>
      if String.eqb k k' then (k', v) :: t else (k', v') :: dict_set t k v
  end.

(** *** set *)

(** The iteration order of a set whose elements are listed in [l]. *)
Class SetOrder : Type := {
  set_iter : list string -> list string;
  set_iter_perm : forall l, Permutation (set_iter l) l
}.

(** One admissible order: elements in order of first insertion. *)
Definition insertion_order : SetOrder :=
  {| set_iter := fun l => l; set_iter_perm := @Permutation_refl string |}.

(** [set(l)]. *)
Definition set_of {so : SetOrder} (l : list string) : list string :=
  set_iter (nodup string_dec l).

(** [s.issubset(other)]; [other] is any iterable. *)
Definition issubset (s other : list string) : bool :=
  forallb (fun x => mem x other) s.

(** [s.difference(other)]. *)
Definition difference {so : SetOrder} (s other : list string) : list string :=
  set_iter (filter (fun x => negb (mem x other)) s).

(** *** str *)

(** [s.replace(old, "")] for a non-empty [old]: [skip] characters of a
    match found earlier are still to be dropped. *)
Fixpoint remove_from (old : string) (skip : nat) (s : string) : string :=
  match s with
  | EmptyString => EmptyString
  | String c rest =>
      match skip with
      | S k => remove_from old k rest
      | O =>
          if String.prefix old s
          then remove_from old (String.length old - 1) rest
          else String c (remove_from old O rest)
      end
  end.

(** [s.replace(old, "")]. *)
Definition str_remove (s old : string) : string :=
  match old with
  | EmptyString => s
  | _ => remove_from old 0 s
  end.

Definition ascii_mem (c : ascii) (chars : list ascii) : bool :=
  existsb (Ascii.eqb c) chars.

Fixpoint lstrip_list (chars : list ascii) (s : list ascii) : list ascii :=
  match s with
  | [] => []
  | c :: rest => if ascii_mem c chars then lstrip_list chars rest else s
  end.

(** [s.strip(chars)]. *)
Definition strip (s chars : string) : string :=
  let cs := list_ascii_of_string chars in
  let left := lstrip_list cs (list_ascii_of_string s) in
  string_of_list_ascii (rev (lstrip_list cs (rev left))).

(** XPath [contains(s, sub)]. *)
Fixpoint contains (s sub : string) : bool :=
  String.prefix sub s ||
  match s with
  | EmptyString => false
  | String _ rest => contains rest sub
  end.

(** *** float *)

(** The literal [0.7] is the double [double_0_7 * 2^-53]. *)
Definition double_0_7 : Z := 6305039478318694.

(** Rounds the positive integer [p] to 53 significant bits, to nearest
    and ties to even, as IEEE 754 multiplication does with the exact
    product. *)
Definition round_53 (p : Z) : Z :=
  let bits := (Z.log2 p + 1)%Z in
  if (bits <=? 53)%Z then p
  else
    let s := (bits - 53)%Z in
    let q := (p / 2 ^ s)%Z in
    let r := (p mod 2 ^ s)%Z in
    let half := (2 ^ (s - 1))%Z in
    let q' := if (half <? r)%Z || ((r =? half)%Z && Z.odd q)
              then (q + 1)%Z else q in
    (q' * 2 ^ s)%Z.

(** [n * 0.7] for an [int] [n] below [2^53] (converted exactly), as the
    numerator of a fraction over [2^53]. *)
Definition times_0_7 (n : nat) : Z := round_53 (Z.of_nat n * double_0_7).

(** [c > n * 0.7]; Python compares an [int] with a [float] exactly. *)
Definition gt_times_0_7 (c n : nat) : bool :=
  (times_0_7 n <? Z.of_nat c * 2 ^ 53)%Z.

End Py.

Import Py.

Notation "x <- c ;; k" := (Py.bind c (fun x => k))
(at level 61, c at next level, right associativity).


(** ** helpers.py *)

Module Helpers.

Definition inspect {A : Type} (a : A) : {b : A | a = b} :=
  exist _ a eq_refl.

Lemma remove_first_length (x : string) (l : list string) :
  mem x l = true -> S (List.length (remove_first x l)) = List.length l.
Proof.
  induction l as [|y t IH]; simpl; [discriminate|].
  destruct (String.eqb x y); simpl; [reflexivity|].
  intros H. now rewrite IH.
Qed.

(** [select_top_priority(items, priority)].  A single item is returned
    as it is.  Otherwise the first entry of [priority] that occurs in
    [items] is removed from both lists and the call repeats; when the
    loop finds no such entry the function falls off its end and returns
    Python's [None]. *)
Equations? select_top_priority (items priority : list string) : option string
  by wf (List.length items) lt :=
  select_top_priority [x] priority := Some x;
  select_top_priority items priority
    with inspect (find (fun p => mem p items) priority) => {
    | exist _ (Some p) Hp =>
        select_top_priority (remove_first p items) (remove_first p priority)
    | exist _ None _ => None }.
Proof.
  all: apply find_some in Hp; destruct Hp as [_ Hp]; try discriminate.
  change (List.length (remove_first p (s :: s0 :: l))
          < List.length (s :: s0 :: l)).
  change (mem p (s :: s0 :: l) = true) in Hp.
  apply remove_first_length in Hp. lia.
Qed.

(** *** Pages *)

(** A [<table>] element: its [id] attribute and the [data-stat]
    attributes of the [th] cells of the last header row, in document
    order. *)
Record table : Type := {
  table_id : string;
  header : list string
}.

(** A fetched page: the squad identifiers the regular expression finds
    in the performer links, and the tables of the document. *)
Record page : Type := {
  squad_ids : list string;
  page_tables : list table
}.

(** [response.xpath('//table[contains(@id, "stats")]')]. *)
Definition all_tables (p : page) : list table :=
  filter (fun t => contains (table_id t) "stats") (page_tables p).

(** The label of a table: its id without ["stats"], without the two squad
    identifiers, stripped of spaces and underscores.  [ids[0]] and
    [ids[1]] raise [IndexError] on a shorter list. *)
Definition table_label (ids : list string) (t : table) : result string :=
  match ids with
  | id0 :: id1 :: _ =>
      Ok (strip (str_remove (str_remove (str_remove (table_id t) "stats")
                               id0) id1) " _")
  | _ => Raise IndexError
  end.

(** The inner loop of [get_table_types]: one entry per table selector.
    Selectors are distinct objects, so no entry replaces another. *)
Fixpoint label_tables (ids : list string) (ts : list table)
    (table_types : list (table * string)) : result (list (table * string)) :=
  match ts with
  | [] => Ok table_types
  | t :: rest =>
      l <- table_label ids t ;;
      label_tables ids rest (table_types ++ [(t, l)])
  end.

Fixpoint get_table_types_from (urls : list page)
    (table_types : list (table * string))
    : result (option (list (table * string))) :=
  match urls with
  | [] => Ok (Some table_types)
  | p :: rest =>
      match all_tables p with
      | [] => Ok None
      | ts =>
          table_types' <- label_tables (squad_ids p) ts table_types ;;
          get_table_types_from rest table_types'
      end
  end.

(** [get_table_types(urls)]; each url stands for the page it fetches.
    [Ok None] is the [return None] taken at the first page without
    tables. *)
Definition get_table_types (urls : list page)
    : result (option (list (table * string))) :=
  get_table_types_from urls [].

(** The body of the [for v in variables] loop of [get_all_variables]. *)
Definition add_variable (all_vars : dict (list string)) (cat v : string)
    : dict (list string) :=
  match dict_get all_vars cat with
  | Some vs => if mem v vs then all_vars else dict_set all_vars cat (vs ++ [v])
  | None => dict_set all_vars cat [v]
  end.

(** [get_all_variables(urls)]. *)
Definition get_all_variables (urls : list page) : result (dict (list string)) :=
  tables <- get_table_types urls ;;
  match tables with
  | None | Some [] => Raise (Exception NoValidStatsTables)
  | Some ts =>
      Ok (fold_left
            (fun all_vars '(t, cat) =>
               fold_left (fun av v => add_variable av cat v) (header t)
                 all_vars)
            ts [])
  end.

(** *** Deduplication *)

(** [sorted(priorities.items(), key=lambda x: x[1], reverse=True)]: by
    descending rank; the sort is stable, so entries of equal rank keep the
    order of the dict. *)
Fixpoint insert_desc (x : string * Z) (l : list (string * Z))
    : list (string * Z) :=
  match l with
  | [] => [x]
  | y :: t => if (snd x <? snd y)%Z then y :: insert_desc x t else x :: y :: t
  end.

Definition sorted_desc (l : list (string * Z)) : list (string * Z) :=
  fold_right insert_desc [] l.

(** The loop [for cat in categories] that collects the categories of
    [var]; [variables[cat]] raises [KeyError] for a category that was not
    observed. *)
Fixpoint cat_list_of (variables : dict (list string)) (var : string)
    (categories cat_list : list string) : result (list string) :=
  match categories with
  | [] => Ok cat_list
  | cat :: rest =>
      vs <- getitem variables cat ;;
      cat_list_of variables var rest
        (if mem var vs then cat_list ++ [cat] else cat_list)
  end.

(** The loop [for var in unique_vars] that fills [var_categories]. *)
Fixpoint index_variables (variables : dict (list string))
    (categories unique_vars : list string)
    (var_categories : dict (list string)) : result (dict (list string)) :=
  match unique_vars with
  | [] => Ok var_categories
  | var :: rest =>
      cat_list <- cat_list_of variables var categories [] ;;
      index_variables variables categories rest
        (dict_set var_categories var cat_list)
  end.

(** The test of the frequency rule for an entry [(var, cats)] of
    [var_categories]; [var_categories[var]] is [cats]. *)
Definition summary_rule (all_vars categories : list string)
    (var : string) (cats : list string) : bool :=
  gt_times_0_7 (count var all_vars) (List.length categories)
  && mem "summary" cats.

(** The owner of [var]: ["summary"], or what [select_top_priority]
    returns (a category or [None]). *)
Definition owner_of (all_vars categories priorities : list string)
    (var : string) (cats : list string) : option string :=
  if summary_rule all_vars categories var cats then Some "summary"
  else select_top_priority cats priorities.

(** [var_map[v] == cat]. *)
Definition owner_is (owner : option string) (cat : string) : bool :=
  match owner with
  | Some c => String.eqb c cat
  | None => false
  end.

(** [output[cat].append(v)], or [output[cat] = [v]] on [KeyError]. *)
Definition append_value (output : dict (list string)) (cat v : string)
    : dict (list string) :=
  match dict_get output cat with
  | Some vs => dict_set output cat (vs ++ [v])
  | None => dict_set output cat [v]
  end.

Fixpoint collect (var_map : dict (option string)) (cat : string)
    (vars : list string) (output : dict (list string))
    : result (dict (list string)) :=
  match vars with
  | [] => Ok output
  | v :: rest =>
      owner <- getitem var_map v ;;
      collect var_map cat rest
        (if owner_is owner cat then append_value output cat v else output)
  end.

Fixpoint build_output (var_map : dict (option string))
    (items : list (string * list string)) (output : dict (list string))
    : result (dict (list string)) :=
  match items with
  | [] => Ok output
  | (cat, vars) :: rest =>
      output' <- collect var_map cat vars output ;;
      build_output var_map rest output'
  end.

(** [remove_duplicate_values(variables, ranks)]. *)
Definition remove_duplicate_values {so : SetOrder}
    (variables : dict (list string)) (ranks : dict Z)
    : result (dict (list string)) :=
  let categories := keys ranks in
  let priorities := map fst (sorted_desc ranks) in
  if negb (issubset (set_of (keys variables)) priorities) then
    Raise (Exception (NoAssignedRanks
             (difference (set_of priorities) (set_of (keys variables)))))
  else
    let all_vars := concat (values variables) in
    let unique_vars := set_of all_vars in
    var_categories <- index_variables variables categories unique_vars [] ;;
    let var_map :=
      fold_left
        (fun vm '(var, cats) =>
           dict_set vm var (owner_of all_vars categories priorities var cats))
        var_categories [] in
    build_output var_map variables [].

(** *** Deltas *)

(** A value of the dict [find_difference] returns: the set built by
    [difference], or the list [left[key]] itself. *)
Inductive delta : Type :=
| DSet (s : list string)
| DList (l : list string).

Definition elements (d : delta) : list string :=
  match d with
  | DSet s => s
  | DList l => l
  end.

(** [find_difference(left, right)]. *)
Definition find_difference {so : SetOrder} (left right : dict (list string))
    : dict delta :=
  let diff :=
    fold_left
      (fun diff '(key, values) =>
         match dict_get right key with
         | Some right_values =>
             dict_set diff key
               (DSet (difference (set_of values) (set_of right_values)))
         | None => dict_set diff key (DList values)
         end)
      left [] in
  filter (fun '(_, v) => (0 <? List.length (elements v))%nat) diff.

(** In closed form, the value [find_difference] stores under [key]
    before it drops the empty ones. *)
Definition delta_of {so : SetOrder} (right : dict (list string)) (key : string)
    (values : list string) : delta :=
  match dict_get right key with
  | Some right_values =>
      DSet (difference (set_of values) (set_of right_values))
  | None => DList values
  end.

(** [len(v) > 0] for an entry of the dict. *)
Definition non_empty (kv : string * delta) : bool :=
  (0 <? List.length (elements (snd kv)))%nat.

(** *** Vocabulary of the statements *)

(** [d] lists [v] under the category [c]. *)
Definition lists (d : dict (list string)) (c v : string) : Prop :=
  exists vs, dict_get d c = Some vs /\ In v vs.

(** The rank of a category, [0] for a category without one. *)
Definition rank_of (ranks : dict Z) (c : string) : Z :=
  match dict_get ranks c with
  | Some r => r
  | None => 0%Z
  end.

(** The order of [priorities]: ranks do not increase along the list. *)
Definition by_rank_desc (rk : string -> Z) (a b : string) : Prop :=
  (rk b <= rk a)%Z.

(** In closed form, the list [cat_list] that [index_variables] stores for
    [var]. *)
Definition cats_of (variables : dict (list string)) (categories : list string)
    (var : string) : list string :=
  filter
    (fun cat =>
       match dict_get variables cat with
       | Some vs => mem var vs
       | None => false
       end)
    categories.

(** [var_map] gives [v] the owner [c]. *)
Definition owned (var_map : dict (option string)) (v c : string) : Prop :=
  exists o, dict_get var_map v = Some o /\ owner_is o c = true.

(** The owner [remove_duplicate_values] computes for [v]. *)
Definition owner (variables : dict (list string)) (ranks : dict Z) (v : string)
    : option string :=
  owner_of (concat (values variables)) (keys ranks)
    (map fst (sorted_desc ranks)) v (cats_of variables (keys ranks) v).

(** The order of [sorted_desc] on the items of [ranks]. *)
Definition snd_desc (a b : string * Z) : Prop := (snd b <= snd a)%Z.

(** [a] occurs in [l] at a position before an occurrence of [b]. *)
Definition before {A : Type} (a b : A) (l : list A) : Prop :=
  exists l1 l2, l = l1 ++ a :: l2 /\ In b l2.

(** The characters [table_label] strips: a space and an underscore. *)
Definition label_margin : list ascii := list_ascii_of_string " _".

(** In closed form, what the final loop of [remove_duplicate_values] keeps
    of the list [vars] of the category [cat]. *)
Definition kept (var_map : dict (option string)) (cat : string)
    (vars : list string) : list string :=
  filter
    (fun v =>
       match dict_get var_map v with
       | Some o => owner_is o cat
       | None => false
       end)
    vars.

(** The loop of [get_all_variables] over the tables. *)
Definition gather (ts : list (table * string)) (acc : dict (list string))
    : dict (list string) :=
  fold_left
    (fun all_vars '(t, cat) =>
       fold_left (fun av v => add_variable av cat v) (header t) all_vars)
    ts acc.

(** Every list of the dict is duplicate-free and not empty. *)
Definition tidy (d : dict (list string)) : Prop :=
  dict_wf d /\ forall c vs, dict_get d c = Some vs -> NoDup vs /\ vs <> [].

End Helpers.

Import Helpers.

(** ** config.py *)

Module Config.

(** The mapping [self.config]; either key may be missing. *)
Record config : Type := {
  tables : option (dict Z);
  variables : option (dict (list string))
}.

Definition empty_config : config := {| tables := None; variables := None |}.

(** [FbrefConfig.__init__]: the content of the settings file, or the
    empty dict when there is no file. *)
Definition init (file : option config) : config :=
  match file with
  | Some c => c
  | None => empty_config
  end.

(** [FbrefConfig.save]: the file now holds [self.config]. *)
Definition save (self : config) : option config := Some self.

(** [setting_priorities]: the ranks stored in the object, or an empty
    dict. *)
Definition known_ranks (self : config) : dict Z :=
  match tables self with
  | Some t => t
  | None => []
  end.

(** The rank a newly found table type gets in the loop of
    [update_tables]; [n] is [len(table_types)]. *)
Definition new_rank (n : Z) (table : string) : Z :=
  if String.eqb table "summary" then n
  else if String.eqb table "misc" then (n - 1)%Z
  else 1%Z.

(** [FbrefConfig.update_tables(urls)]: the state of [self.config] after
    the call and the value returned, [None] or the set of added table
    types.  [new_settings] is the very dict stored in the object, so the
    ranks are in [self.config] when the call returns. *)
Definition update_tables {so : SetOrder} (self : config) (urls : list page)
    : result (config * option (list string)) :=
  let setting_priorities := known_ranks self in
  found <- get_table_types urls ;;
  labels <- match found with
            | Some ts => Ok (map snd ts)
            | None => Raise AttributeError
            end ;;
  let table_types := set_of labels in
  let known := set_of (keys setting_priorities) in
  if truthy setting_priorities && issubset table_types known
  then Ok (self, None)
  else
    let added := difference table_types known in
    let new_settings :=
      fold_left
        (fun ns table =>
           dict_set ns table
             (new_rank (Z.of_nat (List.length table_types)) table))
        added setting_priorities in
    Ok ({| tables := Some new_settings; variables := variables self |},
        Some added).

(** [FbrefConfig.update_variables(urls)]: the state of [self.config]
    after the call and the pair [(added, removed)]. *)
Definition update_variables {so : SetOrder} (self : config) (urls : list page)
    : result (config * (dict delta * dict delta)) :=
  let existing_map :=
    match variables self with
    | Some m => m
    | None => []
    end in
  all_vars <- get_all_variables urls ;;
  ranks <- match tables self with
           | Some t => Ok t
           | None => Raise (KeyError "tables")
           end ;;
  new_map <- remove_duplicate_values all_vars ranks ;;
  let added := find_difference new_map existing_map in
  let removed := find_difference existing_map new_map in
  if truthy added || truthy removed
  then Ok ({| tables := tables self; variables := Some new_map |},
           (added, removed))
  else Ok (self, (added, removed)).

(** *** The script *)

(** [choice in ("Y", "y")]. *)
Definition confirmed (choice : string) : bool :=
  String.eqb choice "Y" || String.eqb choice "y".

(** [if changes:] on the value [update_tables] returns. *)
Definition any_change (changes : option (list string)) : bool :=
  match changes with
  | Some added => truthy added
  | None => false
  end.

(** One run of the script: the content of the settings file when the
    process ends, or the exception that ends it.  [file] is the settings
    file found at start, [urls] the pages behind the reference URLs typed
    in, [choice] the answer to the one save prompt a run can reach.
    Printing is left out. *)
Definition main {so : SetOrder} (file : option config) (urls : list page)
    (choice : string) : result (option config) :=
  let config := init file in
  r <- update_tables config urls ;;
  let '(config1, changes) := r in
  if any_change changes then
    if confirmed choice then Ok (save config1) else Ok file
  else
    r2 <- update_variables config1 urls ;;
    let '(config2, (added, removed)) := r2 in
    if truthy added || truthy removed then
      if confirmed choice then Ok (save config2) else Ok file
    else Ok file.

End Config.

Import Config.

(** ** Sample inputs *)

Module Samples.

(** A match page with a summary, a misc and a passing table. *)
Definition match_page : page :=
  {| squad_ids := ["18bb7c10"; "5bfb9659"];
     page_tables :=
       [ {| table_id := "stats_18bb7c10_summary";
            header := ["player"; "goals"] |};
         {| table_id := "stats_18bb7c10_misc";
            header := ["player"; "fouls"] |};
         {| table_id := "stats_5bfb9659_passing";
            header := ["player"; "cmp"] |};
         {| table_id := "scorebox"; header := [] |} ] |}.

(** A page that shows the summary table only. *)
Definition summary_page : page :=
  {| squad_ids := ["18bb7c10"; "5bfb9659"];
     page_tables :=
       [ {| table_id := "stats_18bb7c10_summary";
            header := ["player"; "goals"] |} ] |}.

(** A configuration that ranks summary and passing. *)
Definition two_ranks : config :=
  {| tables := Some [("summary", 2%Z); ("passing", 1%Z)]; variables := None |}.

(** The configuration [update_tables] builds from nothing on
    [match_page]. *)
Definition three_ranks : config :=
  {| tables := Some [("summary", 3%Z); ("misc", 2%Z); ("passing", 1%Z)];
     variables := None |}.

(** The two variable maps of the delta example. *)
Definition existing_map : dict (list string) := [("passing", ["cmp"; "att"])].

Definition new_map : dict (list string) :=
  [("passing", ["cmp"]); ("shooting", ["att"])].

(** The two categories of the elimination example. *)
Definition ab_variables : dict (list string) := [("A", ["x"]); ("B", ["x"])].

Definition ab_ranks : dict Z := [("A", 1%Z); ("B", 3%Z)].

(** Seven categories; [player] is a column of five of them. *)
Definition seven_ranks : dict Z :=
  [("summary", 7%Z); ("passing", 1%Z); ("passing_types", 2%Z);
   ("defense", 3%Z); ("possession", 4%Z); ("misc", 6%Z); ("keeper", 5%Z)].

Definition seven_variables : dict (list string) :=
  [("summary", ["player"; "goals"]); ("passing", ["player"; "cmp"]);
   ("passing_types", ["player"; "live"]); ("defense", ["player"; "tackles"]);
   ("possession", ["player"; "touches"]); ("misc", ["fouls"; "cmp"]);
   ("keeper", ["saves"])].

(** What deduplication returns for them: [player] goes to summary, [cmp]
    to passing, the category of lower rank. *)
Definition seven_output : dict (list string) :=
  [("summary", ["player"; "goals"]); ("passing", ["cmp"]);
   ("passing_types", ["live"]); ("defense", ["tackles"]);
   ("possession", ["touches"]); ("misc", ["fouls"]); ("keeper", ["saves"])].

(** A page without any stats table. *)
Definition bare_page : page :=
  {| squad_ids := ["18bb7c10"; "5bfb9659"];
     page_tables := [ {| table_id := "scorebox"; header := [] |} ] |}.

(** What [get_table_types] and [get_all_variables] find on
    [match_page]. *)
Definition match_types : list (table * string) :=
  [ ({| table_id := "stats_18bb7c10_summary"; header := ["player"; "goals"] |},
     "summary");
    ({| table_id := "stats_18bb7c10_misc"; header := ["player"; "fouls"] |},
     "misc");
    ({| table_id := "stats_5bfb9659_passing"; header := ["player"; "cmp"] |},
     "passing") ].

Definition match_variables : dict (list string) :=
  [("summary", ["player"; "goals"]); ("misc", ["player"; "fouls"]);
   ("passing", ["player"; "cmp"])].

(** The deduplicated map of [match_page] under [three_ranks], and the
    configuration that stores it. *)
Definition match_map : dict (list string) :=
  [("summary", ["player"; "goals"]); ("misc", ["fouls"]); ("passing", ["cmp"])].

Definition three_ranks_mapped : config :=
  {| tables := tables three_ranks; variables := Some match_map |}.

(** [two_ranks] after [update_tables] has seen [match_page]. *)
Definition two_ranks_more : config :=
  {| tables := Some [("summary", 2%Z); ("passing", 1%Z); ("misc", 2%Z)];
     variables := None |}.

(** A page with a stats table that names one squad only. *)
Definition one_squad_page : page :=
  {| squad_ids := ["18bb7c10"];
     page_tables :=
       [ {| table_id := "stats_18bb7c10_summary";
            header := ["player"; "goals"] |} ] |}.

(** Two categories of equal rank that share a variable; [y] is seen in
    one of them only. *)
Definition tie_ranks : dict Z := [("A", 1%Z); ("B", 1%Z)].

Definition tie_variables : dict (list string) :=
  [("A", ["x"; "y"]); ("B", ["x"])].

(** A configuration whose one stored rank exceeds the number of
    categories of [match_page], and what [update_tables] makes of it
    there. *)
Definition passing_five : config :=
  {| tables := Some [("passing", 5%Z)]; variables := None |}.

Definition passing_five_more : config :=
  {| tables := Some [("passing", 5%Z); ("summary", 3%Z); ("misc", 2%Z)];
     variables := None |}.

(** A page without squad links and without tables. *)
Definition nothing_page : page := {| squad_ids := []; page_tables := [] |}.

End Samples.

(** * Properties *)

(** ** The runtime model *)

Section Runtime.

Context {so : SetOrder}.

Lemma mem_In (x : string) (l : list string) : mem x l = true <-> In x l.
Proof.
  unfold mem. rewrite existsb_exists. split.
  - intros [y [Hy E]]. apply String.eqb_eq in E. now subst.
  - intros H. exists x. split; [assumption | apply String.eqb_refl].
Qed.

Lemma mem_false (x : string) (l : list string) : mem x l = false <-> ~ In x l.
Proof.
  rewrite <- mem_In. destruct (mem x l); split; congruence.
Qed.

Lemma set_iter_In (x : string) (l : list string) : In x (set_iter l) <-> In x l.
Proof.
  split; apply Permutation_in;
    [apply set_iter_perm | apply Permutation_sym, set_iter_perm].
Qed.

Lemma set_iter_NoDup (l : list string) : NoDup l -> NoDup (set_iter l).
Proof.
  intros H. eapply Permutation_NoDup; [|exact H].
  apply Permutation_sym, set_iter_perm.
Qed.

Lemma set_iter_length (l : list string) : List.length (set_iter l) = List.length l.
Proof. apply Permutation_length, set_iter_perm. Qed.

Lemma set_of_In (x : string) (l : list string) : In x (set_of l) <-> In x l.
Proof. unfold set_of. rewrite set_iter_In. apply nodup_In. Qed.

Lemma set_of_NoDup (l : list string) : NoDup (set_of l).
Proof. apply set_iter_NoDup, NoDup_nodup. Qed.

Lemma difference_In (x : string) (s other : list string) :
  In x (difference s other) <-> In x s /\ ~ In x other.
Proof.
  unfold difference. rewrite set_iter_In, filter_In, negb_true_iff, mem_false.
  reflexivity.
Qed.

Lemma difference_NoDup (s other : list string) :
  NoDup s -> NoDup (difference s other).
Proof. intros H. apply set_iter_NoDup, NoDup_filter, H. Qed.

Lemma issubset_spec (s other : list string) :
  issubset s other = true <-> (forall x, In x s -> In x other).
Proof.
  unfold issubset. rewrite forallb_forall.
  split; intros H x Hx; apply mem_In; auto.
Qed.

Lemma truthy_false {A : Type} (l : list A) : truthy l = false <-> l = [].
Proof. destruct l; simpl; split; congruence. Qed.

Lemma dict_get_set {V : Type} (d : dict V) (k k' : string) (v : V) :
  dict_get (dict_set d k v) k' =
  if String.eqb k' k then Some v else dict_get d k'.
Proof.
  induction d as [|[k0 v0] t IH]; simpl.
  - reflexivity.
  - destruct (String.eqb_spec k k0) as [->|Hk]; simpl.
    + destruct (String.eqb k' k0); reflexivity.
    + rewrite IH. destruct (String.eqb_spec k' k0) as [->|Hk'].
      * apply String.eqb_neq in Hk. rewrite String.eqb_sym in Hk.
        now rewrite Hk.
      * reflexivity.
Qed.

Lemma dict_get_None {V : Type} (d : dict V) (k : string) :
  dict_get d k = None <-> ~ In k (keys d).
Proof.
  induction d as [|[k0 v0] t IH]; simpl.
  - tauto.
  - destruct (String.eqb_spec k k0) as [->|Hk].
    + split; [discriminate | tauto].
    + rewrite IH. split; [intros H [E|I]; [congruence | tauto] | tauto].
Qed.

Lemma dict_get_Some_key {V : Type} (d : dict V) (k : string) (v : V) :
  dict_get d k = Some v -> In k (keys d).
Proof.
  intros H. destruct (in_dec string_dec k (keys d)) as [I|N]; [exact I|].
  apply dict_get_None in N. congruence.
Qed.

Lemma dict_get_In {V : Type} (d : dict V) (k : string) (v : V) :
  dict_get d k = Some v -> In (k, v) d.
Proof.
  induction d as [|[k0 v0] t IH]; simpl; [discriminate|].
  destruct (String.eqb_spec k k0) as [->|Hk].
  - intros [= ->]. now left.
  - intros H. right. auto.
Qed.

Lemma In_dict_get {V : Type} (d : dict V) (k : string) (v : V) :
  dict_wf d -> In (k, v) d -> dict_get d k = Some v.
Proof.
  unfold dict_wf, keys.
  induction d as [|[k0 v0] t IH]; simpl; [tauto|].
  intros W [E|I].
  - injection E as -> ->. now rewrite String.eqb_refl.
  - inversion W as [|? ? N W']; subst.
    destruct (String.eqb_spec k k0) as [->|Hk].
    + exfalso. apply N. change k0 with (fst (k0, v)). now apply in_map.
    + auto.
Qed.

(** A loop that stores [f key] under each key of [todo]. *)
Lemma dict_get_fold_set {V : Type} (f : string -> V) (todo : list string)
    (d : dict V) (k : string) :
  dict_get (fold_left (fun ns key => dict_set ns key (f key)) todo d) k =
  if mem k todo then Some (f k) else dict_get d k.
Proof.
  revert d. induction todo as [|a rest IH]; intros d; simpl.
  - reflexivity.
  - rewrite IH, dict_get_set.
    destruct (String.eqb_spec k a) as [->|Hk]; simpl.
    + now destruct (mem a rest).
    + reflexivity.
Qed.

End Runtime.

(** ** update_tables *)

Section UpdateTables.

Context {so : SetOrder}.

(** What a call that returns an added-set has done. *)
Lemma update_tables_added (self self' : config) (urls : list page)
    (added : list string) :
  update_tables self urls = Ok (self', Some added) ->
  exists ts,
    get_table_types urls = Ok (Some ts) /\
    added = difference (set_of (map snd ts)) (set_of (keys (known_ranks self))) /\
    self' =
      {| tables :=
           Some (fold_left
                   (fun ns table =>
                      dict_set ns table
                        (new_rank (Z.of_nat (List.length (set_of (map snd ts))))
                           table))
                   added (known_ranks self));
         variables := variables self |}.
Proof.
  unfold update_tables, known_ranks.
  destruct (get_table_types urls) as [[ts|]|e]; simpl; try discriminate.
  destruct (truthy _ && issubset _ _); [discriminate|].
  intros [= <- <-]. exists ts. auto.
Qed.

Lemma update_tables_none (self self' : config) (urls : list page) :
  update_tables self urls = Ok (self', None) -> self' = self.
Proof.
  unfold update_tables.
  destruct (get_table_types urls) as [[ts|]|e]; simpl; try discriminate.
  destruct (truthy _ && issubset _ _); [|discriminate].
  now intros [= <-].
Qed.

End UpdateTables.

Section UpdateTablesClaims.

Context {so : SetOrder}.

Lemma update_tables_keys (self self' : config) (urls : list page)
    (added : list string) (ts : list (table * string)) :
  update_tables self urls = Ok (self', Some added) ->
  get_table_types urls = Ok (Some ts) ->
  forall c, In c (map snd ts) -> In c (keys (known_ranks self')).
Proof.
  intros H G c Hc.
  destruct (update_tables_added _ _ _ _ H) as [ts' [G' [Ha Hs']]].
  rewrite G in G'. injection G' as <-.
  rewrite Hs'. unfold known_ranks at 1. cbn [tables].
  match goal with |- In c (keys ?d) =>
    destruct (dict_get d c) eqn:E; [now apply dict_get_Some_key in E|] end.
  rewrite (dict_get_fold_set (new_rank _)) in E.
  destruct (mem c added) eqn:M; [discriminate|].
  apply mem_false in M. apply dict_get_None in E.
  exfalso. apply M. rewrite Ha. apply difference_In. split.
  - now apply set_of_In.
  - now rewrite set_of_In.
Qed.

(** The test that makes [update_tables] return [None]. *)
Lemma update_tables_subset (self : config) (urls : list page)
    (ts : list (table * string)) :
  get_table_types urls = Ok (Some ts) ->
  known_ranks self <> [] ->
  (forall c, In c (map snd ts) -> In c (keys (known_ranks self))) ->
  update_tables self urls = Ok (self, None).
Proof.
  intros G N Sub. unfold update_tables. rewrite G. simpl.
  destruct (known_ranks self) as [|kv rest] eqn:K; [congruence|].
  simpl truthy.
  assert (S : issubset (set_of (map snd ts)) (set_of (keys (kv :: rest))) = true).
  { apply issubset_spec. intros x Hx.
    rewrite set_of_In in Hx |- *. auto. }
  now rewrite S.
Qed.

(** Nothing is observed when the call leaves no rank at all. *)
Lemma update_tables_empty (self : config) (urls : list page)
    (ts : list (table * string)) :
  get_table_types urls = Ok (Some ts) ->
  known_ranks self = [] ->
  (forall c, In c (map snd ts) -> In c (keys (known_ranks self))) ->
  update_tables self urls =
  Ok ({| tables := Some []; variables := variables self |}, Some []).
Proof.
  intros G N Sub. unfold update_tables. rewrite G. simpl.
  rewrite N in *. simpl truthy. simpl andb. cbv iota.
  assert (E : difference (set_of (map snd ts)) (set_of (keys (@nil (string * Z)))) = []).
  { destruct (difference _ _) as [|x l] eqn:D; [reflexivity|].
    assert (I : In x (x :: l)) by now left.
    rewrite <- D in I. rewrite difference_In, set_of_In in I.
    destruct I as [I _]. destruct (Sub x I). }
  rewrite E. reflexivity.
Qed.

(** C6. When the configuration already ranks at least one category and
    every observed category is among the ranked ones, [update_tables]
    returns [None] and leaves the configuration as it was. *)
Theorem update_tables_superset_noop (self : config) (urls : list page)
    (ts : list (table * string)) :
  get_table_types urls = Ok (Some ts) ->
  known_ranks self <> [] ->
  (forall c, In c (map snd ts) -> In c (keys (known_ranks self))) ->
  update_tables self urls = Ok (self, None).
Proof. exact (update_tables_subset self urls ts). Qed.

(** What a call that adds categories has stored: for each added category
    the rank [n] for summary, [n - 1] for misc and [1] for any other, where [n]
    is the number of observed categories; the added categories are the
    observed ones that had no rank, and every rank stored before is kept.
    Among the added categories, which are all the ranked categories when
    nothing was ranked before, summary ranks strictly highest and misc
    ranks at least as high as the others. *)
Theorem update_tables_new_ranks (self self' : config) (urls : list page)
    (added : list string) :
  update_tables self urls = Ok (self', Some added) ->
  exists ts,
    get_table_types urls = Ok (Some ts) /\
    let n := Z.of_nat (List.length (set_of (map snd ts))) in
    let rank := dict_get (known_ranks self') in
    (forall c, In c added <->
               In c (map snd ts) /\ ~ In c (keys (known_ranks self))) /\
    (forall c, In c (keys (known_ranks self')) ->
               In c added \/ In c (keys (known_ranks self))) /\
    (In "summary" added -> rank "summary" = Some n) /\
    (In "misc" added -> rank "misc" = Some (n - 1)%Z) /\
    (forall c, In c added -> c <> "summary" -> c <> "misc" ->
               rank c = Some 1%Z) /\
    (forall c, In c (keys (known_ranks self)) ->
               rank c = dict_get (known_ranks self) c) /\
    (forall c r, In "summary" added -> In c added -> c <> "summary" ->
                 rank c = Some r -> (r < n)%Z) /\
    (forall c r, In "misc" added -> In c added -> c <> "summary" ->
                 rank c = Some r -> (r <= n - 1)%Z).
Proof.
  intros H.
  destruct (update_tables_added _ _ _ _ H) as [ts [G [Ha Hs']]].
  exists ts. split; [exact G|].
  set (n := Z.of_nat (List.length (set_of (map snd ts)))) in *.
  assert (K : known_ranks self' =
              fold_left (fun ns table => dict_set ns table (new_rank n table))
                added (known_ranks self)) by (rewrite Hs'; reflexivity).
  cbv zeta. rewrite K. clear K Hs'.
  assert (Hin : forall c, In c added <->
                 In c (map snd ts) /\ ~ In c (keys (known_ranks self))).
  { intros c. rewrite Ha, difference_In, !set_of_In. reflexivity. }
  assert (Hget : forall c, In c added ->
            dict_get (fold_left (fun ns table => dict_set ns table (new_rank n table))
                        added (known_ranks self)) c = Some (new_rank n c)).
  { intros c Hc. rewrite (dict_get_fold_set (new_rank n)).
    apply mem_In in Hc. now rewrite Hc. }
  (* two distinct observed categories make [n] at least 2 *)
  assert (Htwo : forall a b, In a added -> In b added -> a <> b -> (2 <= n)%Z).
  { intros a b Ia Ib Hab.
    apply Hin in Ia. apply Hin in Ib. destruct Ia as [Ia _], Ib as [Ib _].
    rewrite <- set_of_In in Ia, Ib.
    assert (L : List.length [a; b] <= List.length (set_of (map snd ts))).
    { apply NoDup_incl_length.
      - constructor; [simpl; intuition congruence|].
        constructor; [simpl; tauto | constructor].
      - intros x [<-|[<-|[]]]; assumption. }
    simpl in L. unfold n. lia. }
  split; [exact Hin|].
  split; [|split; [|split; [|split; [|split; [|split]]]]].
  - intros c Hc.
    destruct (dict_get (fold_left
                (fun ns table => dict_set ns table (new_rank n table))
                added (known_ranks self)) c) as [r|] eqn:E.
    + rewrite (dict_get_fold_set (new_rank n)) in E.
      destruct (mem c added) eqn:M; [left; now apply mem_In|].
      right. now apply dict_get_Some_key in E.
    + apply dict_get_None in E. tauto.
  - intros Hs. rewrite (Hget _ Hs). reflexivity.
  - intros Hm. rewrite (Hget _ Hm). reflexivity.
  - intros c Hc N1 N2. rewrite (Hget _ Hc). unfold new_rank.
    apply String.eqb_neq in N1, N2. now rewrite N1, N2.
  - intros c Hc. rewrite (dict_get_fold_set (new_rank n)).
    destruct (mem c added) eqn:M; [|reflexivity].
    apply mem_In, Hin in M. tauto.
  - intros c r Hs Hc N1. rewrite (Hget _ Hc). intros [= <-].
    pose proof (Htwo _ _ Hs Hc (not_eq_sym N1)) as T.
    unfold new_rank. apply String.eqb_neq in N1. rewrite N1.
    destruct (String.eqb c "misc"); lia.
  - intros c r Hm Hc N1. rewrite (Hget _ Hc). intros [= <-].
    unfold new_rank. apply String.eqb_neq in N1. rewrite N1.
    destruct (String.eqb_spec c "misc") as [->|N2]; [lia|].
    pose proof (Htwo _ _ Hm Hc (not_eq_sym N2)) as T. lia.
Qed.


End UpdateTablesClaims.

Section UpdateTablesExamples.

Import Samples.

(** Witness of C6: summary and passing are ranked, summary is observed. *)
Lemma update_tables_superset_noop_witness :
  update_tables (so := insertion_order) two_ranks [summary_page]
  = Ok (two_ranks, None).
Proof.
  apply (update_tables_superset_noop (so := insertion_order)
           two_ranks [summary_page]
           [({| table_id := "stats_18bb7c10_summary";
                header := ["player"; "goals"] |}, "summary")]).
  - reflexivity.
  - discriminate.
  - intros c [<-|[]]. simpl. auto.
Defined.

(** No prior configuration, summary, misc and passing observed: the ranks
    are 3, 2 and 1. *)
Lemma update_tables_new_ranks_witness :
  update_tables (so := insertion_order) empty_config [match_page]
  = Ok (three_ranks, Some ["summary"; "misc"; "passing"]) /\
  dict_get (known_ranks three_ranks) "summary" = Some 3%Z /\
  dict_get (known_ranks three_ranks) "misc" = Some 2%Z /\
  dict_get (known_ranks three_ranks) "passing" = Some 1%Z.
Proof.
  assert (H : update_tables (so := insertion_order) empty_config [match_page]
              = Ok (three_ranks, Some ["summary"; "misc"; "passing"]))
    by reflexivity.
  split; [exact H|].
  destruct (update_tables_new_ranks (so := insertion_order) _ _ _ _ H)
    as [ts [G [_ [_ [Hs [Hm [Ho _]]]]]]].
  injection G as <-.
  split; [apply Hs; simpl; auto|].
  split; [apply Hm; simpl; auto|].
  apply Ho; [simpl; auto | discriminate | discriminate].
Defined.



End UpdateTablesExamples.

(** ** find_difference *)

Section FindDifference.

Context {so : SetOrder}.

Lemma dict_set_fresh {V : Type} (d : dict V) (k : string) (v : V) :
  ~ In k (keys d) -> dict_set d k v = d ++ [(k, v)].
Proof.
  induction d as [|[k0 v0] t IH]; simpl; intros N; [reflexivity|].
  destruct (String.eqb_spec k k0) as [->|Hk]; [tauto|].
  rewrite IH; [reflexivity | tauto].
Qed.

Lemma find_difference_unfold (left right : dict (list string)) :
  dict_wf left ->
  find_difference left right =
  filter non_empty (map (fun kv => (fst kv, delta_of right (fst kv) (snd kv))) left).
Proof.
  intros W. unfold find_difference.
  assert (F : forall acc, NoDup (keys acc ++ keys left) ->
    fold_left
      (fun diff '(key, values) =>
         match dict_get right key with
         | Some right_values =>
             dict_set diff key
               (DSet (difference (set_of values) (set_of right_values)))
         | None => dict_set diff key (DList values)
         end) left acc
    = acc ++ map (fun kv => (fst kv, delta_of right (fst kv) (snd kv))) left).
  { clear W. induction left as [|[k v] t IH]; intros acc N; simpl.
    - now rewrite app_nil_r.
    - assert (Nk : ~ In k (keys acc)).
      { intros I. simpl in N. apply NoDup_remove_2 in N. apply N.
        apply in_or_app. now left. }
      assert (E : match dict_get right k with
                  | Some right_values =>
                      dict_set acc k
                        (DSet (difference (set_of v) (set_of right_values)))
                  | None => dict_set acc k (DList v)
                  end = acc ++ [(k, delta_of right k v)]).
      { unfold delta_of. destruct (dict_get right k);
          now apply dict_set_fresh. }
      rewrite E, IH.
      + now rewrite <- app_assoc.
      + unfold keys in *. rewrite map_app, <- app_assoc. simpl. exact N. }
  rewrite (F [] W). simpl.
  apply filter_ext. intros [k d]. reflexivity.
Qed.

Lemma dict_get_filter_map (right left : dict (list string)) (c : string) :
  dict_wf left ->
  dict_get
    (filter non_empty
       (map (fun kv => (fst kv, delta_of right (fst kv) (snd kv))) left)) c =
  match dict_get left c with
  | Some vs => if non_empty (c, delta_of right c vs)
               then Some (delta_of right c vs) else None
  | None => None
  end.
Proof.
  unfold dict_wf, keys.
  induction left as [|[k v] t IH]; simpl; intros W; [reflexivity|].
  inversion W as [|? ? N W']; subst.
  destruct (String.eqb_spec c k) as [->|Hc].
  - destruct (non_empty (k, delta_of right k v)) eqn:P; simpl.
    + now rewrite String.eqb_refl.
    + rewrite (IH W').
      assert (G : dict_get t k = None) by now apply dict_get_None.
      now rewrite G.
  - destruct (non_empty (k, delta_of right k v)); simpl.
    + apply String.eqb_neq in Hc. rewrite Hc. auto.
    + auto.
Qed.

Lemma delta_of_In (right : dict (list string)) (c v : string) (vs : list string) :
  In v (elements (delta_of right c vs)) <->
  In v vs /\ (forall ws, dict_get right c = Some ws -> ~ In v ws).
Proof.
  unfold delta_of. destruct (dict_get right c) as [ws|]; simpl.
  - rewrite difference_In, !set_of_In. split.
    + intros [I N]. split; [exact I|]. now intros ? [= <-].
    + intros [I N]. split; [exact I | now apply N].
  - split; [intros I; split; [exact I | discriminate] | tauto].
Qed.

(** The entries of [find_difference left right]. *)
Lemma find_difference_spec (left right : dict (list string)) :
  dict_wf left ->
  (forall cat v,
      (exists d, dict_get (find_difference left right) cat = Some d /\
                 In v (elements d)) <->
      (exists vs, dict_get left cat = Some vs /\ In v vs /\
                  forall ws, dict_get right cat = Some ws -> ~ In v ws)) /\
  (forall cat d, dict_get (find_difference left right) cat = Some d ->
                 elements d <> []).
Proof.
  intros W. rewrite (find_difference_unfold _ _ W). split.
  - intros cat v. rewrite (dict_get_filter_map _ _ _ W). split.
    + intros [d [G I]].
      destruct (dict_get left cat) as [vs|]; [|discriminate].
      destruct (non_empty _); [|discriminate].
      injection G as <-. exists vs. split; [reflexivity|].
      now apply delta_of_In.
    + intros [vs [G I]]. rewrite G.
      apply delta_of_In in I.
      exists (delta_of right cat vs).
      unfold non_empty; simpl.
      destruct (elements (delta_of right cat vs)); [destruct I|].
      simpl. auto.
  - intros cat d. rewrite (dict_get_filter_map _ _ _ W).
    destruct (dict_get left cat) as [vs|]; [|discriminate].
    destruct (non_empty _) eqn:P; [|discriminate].
    intros [= <-]. unfold non_empty in P. simpl in P.
    destruct (elements (delta_of right cat vs)); [discriminate|discriminate].
Qed.

(** C8. [added] holds, per category, exactly the variables of the new map
    that the existing map does not list under that category (all of them
    when the existing map lacks the category); [removed] is the same with
    the two maps exchanged; neither has a category with nothing under it. *)
Theorem find_difference_added_removed (existing new : dict (list string)) :
  dict_wf existing ->
  dict_wf new ->
  let added := find_difference new existing in
  let removed := find_difference existing new in
  (forall cat v,
      (exists d, dict_get added cat = Some d /\ In v (elements d)) <->
      (exists vs, dict_get new cat = Some vs /\ In v vs /\
                  forall ws, dict_get existing cat = Some ws -> ~ In v ws)) /\
  (forall cat v,
      (exists d, dict_get removed cat = Some d /\ In v (elements d)) <->
      (exists vs, dict_get existing cat = Some vs /\ In v vs /\
                  forall ws, dict_get new cat = Some ws -> ~ In v ws)) /\
  (forall cat d, dict_get added cat = Some d -> elements d <> []) /\
  (forall cat d, dict_get removed cat = Some d -> elements d <> []).
Proof.
  intros We Wn. cbv zeta.
  destruct (find_difference_spec new existing Wn) as [A1 A2].
  destruct (find_difference_spec existing new We) as [R1 R2].
  auto.
Qed.

(** [update_variables] returns these two deltas. *)
Lemma update_variables_deltas (self self' : config) (urls : list page)
    (added removed : dict delta) :
  update_variables self urls = Ok (self', (added, removed)) ->
  exists all_vars ranks new_map,
    get_all_variables urls = Ok all_vars /\
    tables self = Some ranks /\
    remove_duplicate_values all_vars ranks = Ok new_map /\
    added = find_difference new_map
              (match variables self with Some m => m | None => [] end) /\
    removed = find_difference
                (match variables self with Some m => m | None => [] end) new_map.
Proof.
  unfold update_variables.
  destruct (get_all_variables urls) as [all_vars|]; simpl; [|discriminate].
  destruct (tables self) as [ranks|]; simpl; [|discriminate].
  destruct (remove_duplicate_values all_vars ranks) as [new_map|] eqn:R; simpl;
    [|discriminate].
  intros H. exists all_vars, ranks, new_map.
  destruct (truthy _ || truthy _); injection H as _ <- <-;
    repeat split; assumption.
Qed.

End FindDifference.

Section FindDifferenceExamples.

Import Samples.

(** Witness of C8: the deltas of the two sample maps. *)
Lemma find_difference_added_removed_witness :
  find_difference (so := insertion_order) new_map existing_map
  = [("shooting", DList ["att"])] /\
  find_difference (so := insertion_order) existing_map new_map
  = [("passing", DSet ["att"])] /\
  (forall cat d,
      dict_get (find_difference (so := insertion_order) new_map existing_map) cat
      = Some d -> elements d <> []).
Proof.
  split; [reflexivity|]. split; [reflexivity|].
  assert (We : dict_wf existing_map).
  { constructor; [simpl; tauto | constructor]. }
  assert (Wn : dict_wf new_map).
  { constructor; [simpl; intuition discriminate|].
    constructor; [simpl; tauto | constructor]. }
  exact (proj1 (proj2 (proj2
    (find_difference_added_removed (so := insertion_order)
       existing_map new_map We Wn)))).
Defined.

End FindDifferenceExamples.

(** ** Category and variable discovery *)

Section Discovery.

Lemma label_tables_ok (ids : list string) (ts : list table)
    (acc : list (table * string)) :
  2 <= List.length ids ->
  exists ls, label_tables ids ts acc = Ok (acc ++ ls) /\
             List.length ls = List.length ts.
Proof.
  intros L. destruct ids as [|id0 [|id1 ids]]; simpl in L; try lia.
  revert acc.
  induction ts as [|t rest IH]; intros acc; cbn [label_tables table_label bind].
  - exists []. now rewrite app_nil_r.
  - destruct (IH (acc ++ [(t, strip (str_remove (str_remove
                     (str_remove (table_id t) "stats") id0) id1) " _")]))
      as [ls [E Len]].
    rewrite E. eexists (_ :: ls). rewrite <- app_assoc. simpl.
    split; [reflexivity | now rewrite Len].
Qed.

(** The loop over the pages either stops at a page without tables, or
    appends the labelled tables of every page. *)
Lemma get_table_types_from_cases (urls : list page) (acc : list (table * string)) :
  (forall p, In p urls -> 2 <= List.length (squad_ids p)) ->
  ((exists p, In p urls /\ all_tables p = []) /\
   get_table_types_from urls acc = Ok None)
  \/
  ((forall p, In p urls -> all_tables p <> []) /\
   exists ls, get_table_types_from urls acc = Ok (Some (acc ++ ls)) /\
              (urls <> [] -> ls <> [])).
Proof.
  revert acc.
  induction urls as [|p rest IH]; intros acc Ids; cbn [get_table_types_from].
  - right. split; [intros p []|]. exists []. rewrite app_nil_r. split; congruence.
  - destruct (all_tables p) as [|t ts] eqn:A.
    + left. split; [|reflexivity]. exists p. split; [now left | exact A].
    + destruct (label_tables_ok (squad_ids p) (t :: ts) acc) as [ls [E Len]];
        [apply Ids; now left|].
      rewrite E. cbn [bind].
      destruct (IH (acc ++ ls)) as [[[q [Iq Aq]] G]|[All [ls' [G _]]]];
        [intros q Iq; apply Ids; now right | |].
      * left. split; [|exact G]. exists q. split; [now right | exact Aq].
      * right. split.
        -- intros q [<-|Iq]; [congruence | auto].
        -- exists (ls ++ ls'). rewrite app_assoc. split; [exact G|].
           intros _. destruct ls; [discriminate | discriminate].
Qed.

(** On pages that each name two squads, [get_table_types] returns [None]
    exactly when some page has no stats table, and [get_all_variables]
    raises the no-valid-stats-tables error exactly then, or when there is
    no page at all. *)
Theorem no_tables_on_one_page (urls : list page) :
  (forall p, In p urls -> 2 <= List.length (squad_ids p)) ->
  (get_table_types urls = Ok None <->
   exists p, In p urls /\ all_tables p = []) /\
  (get_all_variables urls = Raise (Exception NoValidStatsTables) <->
   urls = [] \/ exists p, In p urls /\ all_tables p = []).
Proof.
  intros Ids. unfold get_all_variables, get_table_types.
  destruct (get_table_types_from_cases urls [] Ids)
    as [[Ex G]|[All [ls [G NE]]]]; rewrite G; simpl.
  - split; split; auto.
  - assert (No : ~ exists p, In p urls /\ all_tables p = []).
    { intros [p [I A]]. exact (All p I A). }
    split; [split; [discriminate | tauto]|].
    destruct ls as [|l ls].
    + split; [intros _|reflexivity].
      left. destruct urls; [reflexivity|]. exfalso. apply NE; congruence.
    + split; [discriminate|].
      intros [->|Ex]; [|tauto]. simpl in G. discriminate.
Qed.

End Discovery.

Section DiscoveryExamples.

Import Samples.

(** Counterexample to C9: one page with tables and one without.  The
    error is raised although not all pages lack tables, and the first page
    contributes nothing. *)
Lemma one_bare_page_is_fatal :
  all_tables match_page <> [] /\
  get_table_types [match_page; bare_page] = Ok None /\
  get_all_variables [match_page; bare_page]
  = Raise (Exception NoValidStatsTables).
Proof.
  split; [intros H; vm_compute in H; discriminate|].
  split; reflexivity.
Qed.

(** The same on the two sample pages. *)
Lemma no_tables_on_one_page_witness :
  (get_table_types [match_page; bare_page] = Ok None <->
   exists p, In p [match_page; bare_page] /\ all_tables p = []) /\
  (get_all_variables [match_page; bare_page]
   = Raise (Exception NoValidStatsTables) <->
   [match_page; bare_page] = [] \/
   exists p, In p [match_page; bare_page] /\ all_tables p = []).
Proof.
  apply (no_tables_on_one_page [match_page; bare_page]).
  intros p [<-|[<-|[]]]; simpl; lia.
Defined.

End DiscoveryExamples.

(** ** remove_duplicate_values: the two ways it raises *)

Section Raising.

Context {so : SetOrder}.

Lemma insert_desc_perm (x : string * Z) (l : list (string * Z)) :
  Permutation (insert_desc x l) (x :: l).
Proof.
  induction l as [|y t IH]; simpl; [reflexivity|].
  destruct (snd x <? snd y)%Z; [|reflexivity].
  rewrite IH. apply perm_swap.
Qed.

Lemma sorted_desc_perm (l : list (string * Z)) : Permutation (sorted_desc l) l.
Proof.
  induction l as [|x t IH]; simpl; [reflexivity|].
  rewrite insert_desc_perm. now constructor.
Qed.

(** [priorities] lists the ranked categories. *)
Lemma priorities_perm (ranks : dict Z) :
  Permutation (map fst (sorted_desc ranks)) (keys ranks).
Proof. apply Permutation_map, sorted_desc_perm. Qed.

Lemma priorities_In (ranks : dict Z) (c : string) :
  In c (map fst (sorted_desc ranks)) <-> In c (keys ranks).
Proof.
  split; apply Permutation_in;
    [apply priorities_perm | apply Permutation_sym, priorities_perm].
Qed.

(** The guard of [remove_duplicate_values]. *)
Lemma ranked_guard (variables : dict (list string)) (ranks : dict Z) :
  issubset (set_of (keys variables)) (map fst (sorted_desc ranks)) = true <->
  (forall c, In c (keys variables) -> In c (keys ranks)).
Proof.
  rewrite issubset_spec. split; intros H c Hc.
  - apply priorities_In, H, set_of_In, Hc.
  - apply priorities_In, H. now rewrite set_of_In in Hc.
Qed.

(** When an observed category has no rank the call raises, and the
    message names the ranked categories that were not observed. *)
Lemma unranked_category_raises (variables : dict (list string)) (ranks : dict Z) :
  (exists c, In c (keys variables) /\ ~ In c (keys ranks)) ->
  exists named,
    remove_duplicate_values variables ranks
    = Raise (Exception (NoAssignedRanks named)) /\
    forall c, In c named <-> In c (keys ranks) /\ ~ In c (keys variables).
Proof.
  intros [c [Hc Nc]]. unfold remove_duplicate_values.
  destruct (issubset _ _) eqn:G.
  - exfalso. apply Nc. exact (proj1 (ranked_guard _ _) G c Hc).
  - simpl. eexists. split; [reflexivity|].
    intros x. rewrite difference_In, !set_of_In, priorities_In. reflexivity.
Qed.

Lemma cat_list_of_raises (variables : dict (list string)) (var : string)
    (categories cat_list : list string) :
  (exists c, In c categories /\ ~ In c (keys variables)) ->
  exists c, In c categories /\ ~ In c (keys variables) /\
            cat_list_of variables var categories cat_list = Raise (KeyError c).
Proof.
  revert cat_list.
  induction categories as [|cat rest IH]; intros cat_list [c [I N]];
    [destruct I|].
  cbn [cat_list_of]. unfold getitem.
  destruct (dict_get variables cat) as [vs|] eqn:G; cbn [bind].
  - destruct I as [<-|I].
    + apply dict_get_Some_key in G. tauto.
    + destruct (IH (if mem var vs then cat_list ++ [cat] else cat_list))
        as [c' [I' [N' E]]]; [now exists c|].
      exists c'. split; [now right | now split].
  - exists cat. split; [now left|]. split; [now apply dict_get_None | reflexivity].
Qed.

(** C10. When every observed category is ranked, some ranked category was
    not observed, and at least one variable was observed, the call raises
    [KeyError] for a ranked category that is missing from [variables]. *)
Theorem unobserved_ranked_category_raises (variables : dict (list string))
    (ranks : dict Z) :
  (forall c, In c (keys variables) -> In c (keys ranks)) ->
  (exists c, In c (keys ranks) /\ ~ In c (keys variables)) ->
  concat (values variables) <> [] ->
  exists c, In c (keys ranks) /\ ~ In c (keys variables) /\
            remove_duplicate_values variables ranks = Raise (KeyError c).
Proof.
  intros Pre Missing Some_var. unfold remove_duplicate_values.
  apply ranked_guard in Pre. rewrite Pre. cbn [negb].
  destruct (set_of (concat (values variables))) as [|var rest] eqn:U.
  - exfalso. destruct (concat (values variables)) as [|v vs]; [congruence|].
    assert (I : In v (set_of (v :: vs))) by (apply set_of_In; now left).
    rewrite U in I. destruct I.
  - cbn [index_variables].
    destruct (cat_list_of_raises variables var (keys ranks) [] Missing)
      as [c [I [N E]]].
    rewrite E. cbn [bind]. exists c. auto.
Qed.

End Raising.

Section RaisingExamples.

Import Samples.

(** C4 at the failing input: passing is observed and has no rank, summary
    is ranked and was not observed.  The call raises, and the category its
    message names is summary. *)
Theorem unranked_category_message :
  remove_duplicate_values (so := insertion_order)
    [("passing", ["cmp"])] [("summary", 1%Z)]
  = Raise (Exception (NoAssignedRanks ["summary"])).
Proof. reflexivity. Qed.

(** Witness of C10: summary and passing are ranked, only passing is
    observed. *)
Lemma unobserved_ranked_category_raises_witness :
  exists c,
    In c (keys (known_ranks two_ranks)) /\
    ~ In c (keys [("passing", ["cmp"])]) /\
    remove_duplicate_values (so := insertion_order)
      [("passing", ["cmp"])] (known_ranks two_ranks)
    = Raise (KeyError c).
Proof.
  apply (unobserved_ranked_category_raises (so := insertion_order)
           [("passing", ["cmp"])] (known_ranks two_ranks)).
  - intros c [<-|[]]. simpl. auto.
  - exists "summary". split; [simpl; auto|].
    intros [H|[]]. discriminate H.
  - discriminate.
Defined.

End RaisingExamples.

(** ** select_top_priority *)

Lemma select_top_priority_unfold (items priority : list string) :
  select_top_priority items priority =
  match items with
  | [x] => Some x
  | _ =>
      match find (fun p => mem p items) priority with
      | Some p =>
          select_top_priority (remove_first p items) (remove_first p priority)
      | None => None
      end
  end.
Proof.
  destruct items as [|s [|s0 l]].
  - rewrite select_top_priority_equation_1.
    destruct (inspect (find (fun p => mem p []) priority)) as [[p|] e].
    + rewrite select_top_priority_clause_2_equation_1, e. reflexivity.
    + rewrite select_top_priority_clause_2_equation_2, e. reflexivity.
  - apply select_top_priority_equation_2.
  - rewrite select_top_priority_equation_3.
    destruct (inspect (find (fun p => mem p (s :: s0 :: l)) priority))
      as [[p|] e].
    + rewrite select_top_priority_clause_2_1_equation_1, e. reflexivity.
    + rewrite select_top_priority_clause_2_1_equation_2, e. reflexivity.
Qed.

Section Elimination.

Variable rk : string -> Z.

Lemma remove_first_In (p x : string) (l : list string) :
  In x (remove_first p l) -> In x l.
Proof.
  induction l as [|y t IH]; simpl; [tauto|].
  destruct (String.eqb p y); simpl; tauto.
Qed.

Lemma remove_first_keeps (p x : string) (l : list string) :
  In x l -> x <> p -> In x (remove_first p l).
Proof.
  induction l as [|y t IH]; simpl; [tauto|].
  intros [<-|I] N.
  - destruct (String.eqb_spec p y) as [->|_]; [congruence | now left].
  - destruct (String.eqb p y); [exact I | right; auto].
Qed.

Lemma remove_first_NoDup (p : string) (l : list string) :
  NoDup l -> NoDup (remove_first p l) /\ ~ In p (remove_first p l).
Proof.
  induction 1 as [|y t N ND IH]; simpl; [split; [constructor | tauto]|].
  destruct (String.eqb_spec p y) as [->|Hp].
  - split; assumption.
  - destruct IH as [IH1 IH2]. split.
    + constructor; [|exact IH1]. intros I. apply N. eapply remove_first_In, I.
    + intros [E|I]; [congruence | tauto].
Qed.

Lemma remove_first_sorted (p : string) (l : list string) :
  StronglySorted (by_rank_desc rk) l ->
  StronglySorted (by_rank_desc rk) (remove_first p l).
Proof.
  induction 1 as [|y t S IH F]; simpl; [constructor|].
  destruct (String.eqb p y); [exact S|].
  constructor; [exact IH|].
  rewrite Forall_forall in *. intros x I. apply F. eapply remove_first_In, I.
Qed.

Lemma find_first (f : string -> bool) (l : list string) (p : string) :
  find f l = Some p ->
  exists l1 l2,
    l = l1 ++ p :: l2 /\ (forall x, In x l1 -> f x = false) /\ f p = true.
Proof.
  induction l as [|y t IH]; simpl; [discriminate|].
  destruct (f y) eqn:E.
  - intros [= <-]. exists [], t. simpl. tauto.
  - intros H. destruct (IH H) as [l1 [l2 [-> [A B]]]].
    exists (y :: l1), l2. simpl. split; [reflexivity|]. split; [|exact B].
    intros x [<-|I]; auto.
Qed.

Lemma sorted_after (l1 l2 : list string) (p : string) :
  StronglySorted (by_rank_desc rk) (l1 ++ p :: l2) ->
  Forall (by_rank_desc rk p) l2.
Proof.
  induction l1 as [|y t IH]; simpl; intros S; inversion S; subst; auto.
Qed.

(** What [select_top_priority] returns on the lists that
    [remove_duplicate_values] passes. *)
Lemma select_top_priority_lowest (n : nat) (items priority : list string) :
  List.length items = S n ->
  NoDup items ->
  incl items priority ->
  StronglySorted (by_rank_desc rk) priority ->
  exists c, select_top_priority items priority = Some c /\ In c items /\
            forall x, In x items -> (rk c <= rk x)%Z.
Proof.
  revert items priority.
  induction n as [|n IH]; intros items priority L ND Inc S;
    rewrite select_top_priority_unfold.
  - destruct items as [|x [|y t]]; try discriminate.
    exists x. split; [reflexivity|]. split; [now left|].
    intros ? [<-|[]]. lia.
  - destruct items as [|x [|y t]]; try discriminate.
    set (items := x :: y :: t) in *.
    destruct (find (fun p => mem p items) priority) as [p|] eqn:F.
    + destruct (find_first _ _ _ F) as [l1 [l2 [E [Before Hp]]]].
      apply mem_In in Hp.
      destruct (remove_first_NoDup p items ND) as [ND' Np].
      destruct (IH (remove_first p items) (remove_first p priority))
        as [c [R [Ic Min]]].
      * pose proof (remove_first_length p items (proj2 (mem_In _ _) Hp)) as L'.
        lia.
      * exact ND'.
      * intros z Iz. apply remove_first_keeps.
        -- apply Inc. eapply remove_first_In, Iz.
        -- intros ->. tauto.
      * now apply remove_first_sorted.
      * exists c. split; [exact R|].
        assert (Ic' : In c items) by (eapply remove_first_In, Ic).
        split; [exact Ic'|].
        intros z Iz. destruct (string_dec z p) as [->|Nz].
        -- (* [p] comes before [c] in [priority] *)
           assert (Cp : c <> p) by (intros ->; tauto).
           pose proof (Inc c Ic') as Ipr. rewrite E in Ipr, S.
           apply in_app_or in Ipr. destruct Ipr as [I1|[Eq|I2]].
           ++ apply Before in I1. apply mem_In in Ic'. congruence.
           ++ congruence.
           ++ pose proof (sorted_after _ _ _ S) as A.
              rewrite Forall_forall in A. exact (A c I2).
        -- apply Min. now apply remove_first_keeps.
    + exfalso. pose proof (find_none _ _ F x (Inc x (or_introl eq_refl))) as M.
      simpl in M. rewrite String.eqb_refl in M. discriminate.
Qed.

End Elimination.


(** ** The order of [priorities] and the 70% test *)

Section Priorities.

Lemma insert_desc_sorted (x : string * Z) (l : list (string * Z)) :
  StronglySorted snd_desc l -> StronglySorted snd_desc (insert_desc x l).
Proof.
  induction 1 as [|y t S IH F]; simpl.
  - constructor; constructor.
  - destruct (Z.ltb_spec (snd x) (snd y)) as [Lt|Ge].
    + constructor; [exact IH|].
      rewrite Forall_forall in *. intros z Iz.
      apply (Permutation_in _ (insert_desc_perm x t)) in Iz.
      destruct Iz as [<-|Iz]; [unfold snd_desc; lia | auto].
    + constructor; [now constructor|].
      constructor; [exact Ge|].
      rewrite Forall_forall in *. intros z Iz.
      specialize (F z Iz). unfold snd_desc in *. lia.
Qed.

Lemma sorted_desc_sorted (l : list (string * Z)) :
  StronglySorted snd_desc (sorted_desc l).
Proof.
  induction l as [|x t IH]; simpl; [constructor|].
  now apply insert_desc_sorted.
Qed.

Lemma rank_of_In (ranks : dict Z) (kv : string * Z) :
  dict_wf ranks -> In kv ranks -> rank_of ranks (fst kv) = snd kv.
Proof.
  intros W I. destruct kv as [k r]. unfold rank_of. simpl.
  now rewrite (In_dict_get _ _ _ W I).
Qed.

(** [priorities] runs from the highest rank down to the lowest. *)
Lemma priorities_sorted (ranks : dict Z) :
  dict_wf ranks ->
  StronglySorted (by_rank_desc (rank_of ranks)) (map fst (sorted_desc ranks)).
Proof.
  intros W.
  assert (A : forall kv, In kv (sorted_desc ranks) ->
                         rank_of ranks (fst kv) = snd kv).
  { intros kv I. apply rank_of_In; [exact W|].
    now apply (Permutation_in _ (sorted_desc_perm ranks)). }
  pose proof (sorted_desc_sorted ranks) as S.
  induction S as [|y t S IH F]; simpl; constructor.
  - apply IH. intros kv I. apply A. now right.
  - rewrite Forall_forall in *. intros c Ic.
    apply in_map_iff in Ic. destruct Ic as [kv [<- Ikv]].
    unfold by_rank_desc.
    rewrite (A y (or_introl eq_refl)), (A kv (or_intror Ikv)).
    exact (F kv Ikv).
Qed.

Lemma round_53_le (p : Z) :
  (0 <= p)%Z -> (round_53 p * 2 ^ 52 <= p * (2 ^ 52 + 1))%Z.
Proof.
  intros Hp. unfold round_53.
  destruct (Z.leb_spec (Z.log2 p + 1) 53) as [Small|Big]; [lia|].
  assert (Pos : (0 < p)%Z).
  { destruct (Z.eq_dec p 0) as [->|]; [simpl in Big; lia | lia]. }
  set (s := (Z.log2 p + 1 - 53)%Z) in *.
  assert (Hs : (0 < s)%Z) by (unfold s; lia).
  pose proof (Z.log2_spec p Pos) as [Lo _].
  replace (Z.log2 p) with (s + 52)%Z in Lo by (unfold s; lia).
  rewrite Z.pow_add_r in Lo by lia.
  assert (T : (0 < 2 ^ s)%Z) by (apply Z.pow_pos_nonneg; lia).
  pose proof (Z.mul_div_le p (2 ^ s) T) as Q.
  set (q := (p / 2 ^ s)%Z) in *.
  set (t := (2 ^ s)%Z) in *.
  assert (Up : ((if (2 ^ (s - 1) <? p mod t) || ((p mod t =? 2 ^ (s - 1)) && Z.odd q)
                 then q + 1 else q) <= q + 1)%Z)
    by (destruct (_ || _); lia).
  match type of Up with (?e <= _)%Z => set (q' := e) in * end.
  clearbody q' q t. nia.
Qed.

(** The product is rounded: [90 * 0.7] is the double just below 63, so a
    count of 63, which is 70% of 90, passes the test of the code. *)
Example seventy_percent_of_ninety :
  gt_times_0_7 63 90 = true /\ gt_times_0_7 7 10 = false.
Proof. split; reflexivity. Qed.

(** More than 70% in exact arithmetic is more than 70% for the code. *)
Lemma gt_times_0_7_exact (c n : nat) :
  (Z.of_nat n < 2 ^ 49)%Z ->
  7 * n < 10 * c ->
  gt_times_0_7 c n = true.
Proof.
  intros Bound Gt. unfold gt_times_0_7, times_0_7.
  apply Z.ltb_lt.
  pose proof (round_53_le (Z.of_nat n * double_0_7)) as R.
  unfold double_0_7 in *.
  assert (H : (0 <= Z.of_nat n * 6305039478318694)%Z) by lia.
  specialize (R H).
  set (r := round_53 _) in *. clearbody r.
  change (2 ^ 52)%Z with 4503599627370496%Z in R.
  change (2 ^ 53)%Z with 9007199254740992%Z.
  change (2 ^ 49)%Z with 562949953421312%Z in Bound.
  lia.
Qed.

End Priorities.


(** ** remove_duplicate_values: the calls that return *)

Section Deduplication.

Context {so : SetOrder}.

Lemma all_or_missing (l ks : list string) :
  (forall c, In c l -> In c ks) \/ (exists c, In c l /\ ~ In c ks).
Proof.
  induction l as [|x t [All|[c [I N]]]].
  - left. intros c [].
  - destruct (in_dec string_dec x ks) as [Ix|Nx].
    + left. intros c [<-|I]; auto.
    + right. exists x. split; [now left | exact Nx].
  - right. exists c. split; [now right | exact N].
Qed.

Lemma cat_list_of_ok (variables : dict (list string)) (var : string)
    (categories cat_list : list string) :
  (forall c, In c categories -> In c (keys variables)) ->
  cat_list_of variables var categories cat_list
  = Ok (cat_list ++ cats_of variables categories var).
Proof.
  revert cat_list.
  induction categories as [|cat rest IH]; intros cat_list All;
    cbn [cat_list_of cats_of filter].
  - now rewrite app_nil_r.
  - unfold getitem. destruct (dict_get variables cat) as [vs|] eqn:G.
    + cbn [bind]. rewrite IH by (intros c I; apply All; now right).
      unfold cats_of. destruct (mem var vs); [|reflexivity].
      now rewrite <- app_assoc.
    + apply dict_get_None in G. exfalso. apply G, All. now left.
Qed.

(** The reverse index, when it is built without [KeyError]. *)
Lemma index_variables_ok (variables : dict (list string))
    (categories unique_vars : list string)
    (acc var_categories : dict (list string)) :
  index_variables variables categories unique_vars acc = Ok var_categories ->
  var_categories =
    fold_left (fun vc var => dict_set vc var (cats_of variables categories var))
      unique_vars acc /\
  (unique_vars = [] \/ forall c, In c categories -> In c (keys variables)).
Proof.
  destruct (all_or_missing categories (keys variables)) as [All|Missing].
  - intros H. split; [|now right]. revert acc H.
    induction unique_vars as [|var rest IH]; intros acc; cbn [index_variables].
    + now intros [= <-].
    + rewrite (cat_list_of_ok _ _ _ _ All). cbn [bind app fold_left]. apply IH.
  - destruct unique_vars as [|var rest]; cbn [index_variables].
    + intros [= <-]. split; [reflexivity | now left].
    + destruct (cat_list_of_raises variables var categories [] Missing)
        as [c [_ [_ E]]].
      rewrite E. discriminate.
Qed.

Lemma dict_set_keys {V : Type} (d : dict V) (k : string) (v : V) :
  keys (dict_set d k v) = if mem k (keys d) then keys d else keys d ++ [k].
Proof.
  induction d as [|[k0 v0] t IH]; simpl; [reflexivity|].
  destruct (String.eqb_spec k k0) as [->|Hk]; simpl; [reflexivity|].
  rewrite IH. now destruct (mem k (keys t)).
Qed.

Lemma dict_set_wf {V : Type} (d : dict V) (k : string) (v : V) :
  dict_wf d -> dict_wf (dict_set d k v).
Proof.
  unfold dict_wf. rewrite dict_set_keys. intros W.
  destruct (mem k (keys d)) eqn:M; [exact W|].
  apply mem_false in M.
  apply NoDup_rev in W. rewrite <- (rev_involutive (keys d ++ [k])).
  apply NoDup_rev. rewrite rev_app_distr. simpl.
  constructor; [|exact W]. now rewrite <- in_rev.
Qed.

Lemma fold_dict_set_wf {V : Type} (f : string -> V) (todo : list string)
    (d : dict V) :
  dict_wf d ->
  dict_wf (fold_left (fun vc key => dict_set vc key (f key)) todo d).
Proof.
  revert d. induction todo as [|a rest IH]; intros d W; simpl; [exact W|].
  apply IH, dict_set_wf, W.
Qed.

(** A loop over the items of a dict that stores [h key value] under each
    key. *)
Lemma dict_get_fold_items {V W : Type} (h : string -> V -> W)
    (d : dict V) (acc : dict W) (k : string) :
  dict_wf d ->
  dict_get (fold_left (fun vm '(key, v) => dict_set vm key (h key v)) d acc) k =
  match dict_get d k with
  | Some v => Some (h k v)
  | None => dict_get acc k
  end.
Proof.
  unfold dict_wf, keys. revert acc.
  induction d as [|[k0 v0] t IH]; intros acc Wf; simpl; [reflexivity|].
  inversion Wf as [|? ? N Wf']; subst.
  rewrite (IH _ Wf'), dict_get_set.
  destruct (String.eqb_spec k k0) as [->|Hk].
  - assert (G : dict_get t k0 = None) by now apply dict_get_None.
    now rewrite G.
  - reflexivity.
Qed.

Lemma append_value_lists (output : dict (list string)) (cat v c x : string) :
  lists (append_value output cat v) c x <->
  lists output c x \/ (c = cat /\ x = v).
Proof.
  unfold lists, append_value.
  destruct (dict_get output cat) as [vs|] eqn:G; rewrite dict_get_set;
    destruct (String.eqb_spec c cat) as [->|Hc].
  - rewrite G. split.
    + intros [l [[= <-] I]]. apply in_app_or in I.
      destruct I as [I|[<-|[]]]; [left; eauto | auto].
    + intros [[l [[= <-] I]]|[_ ->]]; eexists; split; try reflexivity;
        apply in_or_app; simpl; auto.
  - split; [auto | intros [H|[E _]]; [exact H | congruence]].
  - rewrite G. split.
    + intros [l [[= <-] [<-|[]]]]. auto.
    + intros [[l [E _]]|[_ ->]]; [discriminate|].
      eexists; split; [reflexivity | now left].
  - split; [auto | intros [H|[E _]]; [exact H | congruence]].
Qed.

Lemma collect_spec (var_map : dict (option string)) (cat : string)
    (vars : list string) (output : dict (list string)) :
  (forall v, In v vars -> exists o, dict_get var_map v = Some o) ->
  exists output',
    collect var_map cat vars output = Ok output' /\
    forall c x, lists output' c x <->
                lists output c x \/ (c = cat /\ In x vars /\ owned var_map x cat).
Proof.
  revert output.
  induction vars as [|v rest IH]; intros output Total; cbn [collect].
  - exists output. split; [reflexivity|]. intros c x. simpl. tauto.
  - destruct (Total v (or_introl eq_refl)) as [o G].
    unfold getitem. rewrite G. cbn [bind].
    destruct (IH (if owner_is o cat then append_value output cat v else output))
      as [output' [E Spec]]; [intros x I; apply Total; now right|].
    exists output'. split; [exact E|].
    intros c x. rewrite Spec. unfold owned.
    destruct (owner_is o cat) eqn:O.
    + rewrite append_value_lists. split.
      * intros [[L|[-> ->]]|[-> [I Ow]]]; auto.
        -- right. split; [reflexivity|]. split; [now left|]. eauto.
        -- right. split; [reflexivity|]. split; [now right | exact Ow].
      * intros [L|[-> [[<-|I] Ow]]]; auto.
    + split.
      * intros [L|[-> [I Ow]]]; auto.
        right. split; [reflexivity|]. split; [now right | exact Ow].
      * intros [L|[-> [[<-|I] [o' [G' O']]]]]; auto.
        -- congruence.
        -- right. split; [reflexivity|]. split; [exact I|]. eauto.
Qed.

Lemma build_output_spec (var_map : dict (option string))
    (items : list (string * list string)) (output : dict (list string)) :
  (forall cat vars v, In (cat, vars) items -> In v vars ->
                      exists o, dict_get var_map v = Some o) ->
  exists output',
    build_output var_map items output = Ok output' /\
    forall c x, lists output' c x <->
                lists output c x \/
                (exists vars, In (c, vars) items /\ In x vars /\ owned var_map x c).
Proof.
  revert output.
  induction items as [|[cat vars] rest IH]; intros output Total;
    cbn [build_output].
  - exists output. split; [reflexivity|]. intros c x.
    split; [auto | intros [L|[vars [[] _]]]; exact L].
  - destruct (collect_spec var_map cat vars output) as [out1 [E1 S1]];
      [intros v I; eapply Total; [now left | exact I]|].
    rewrite E1. cbn [bind].
    destruct (IH out1) as [output' [E Spec]];
      [intros c vs v I Iv; eapply Total; [right; exact I | exact Iv]|].
    exists output'. split; [exact E|].
    intros c x. rewrite Spec, S1. split.
    + intros [[L|[-> [I Ow]]]|[vs [I [Ix Ow]]]]; auto.
      * right. exists vars. split; [now left | auto].
      * right. exists vs. split; [now right | auto].
    + intros [L|[vs [[[= <- <-]|I] [Ix Ow]]]]; auto.
      right. exists vs. auto.
Qed.

End Deduplication.


Section Owners.

Context {so : SetOrder}.

Lemma lists_In_values (variables : dict (list string)) (c v : string) :
  lists variables c v -> In v (concat (values variables)).
Proof.
  intros [vs [G I]]. apply in_concat. exists vs. split; [|exact I].
  apply dict_get_In in G. unfold values.
  change vs with (snd (c, vs)). now apply in_map.
Qed.

Lemma In_values_lists (variables : dict (list string)) (v : string) :
  dict_wf variables ->
  In v (concat (values variables)) -> exists c, lists variables c v.
Proof.
  intros W I. apply in_concat in I. destruct I as [vs [Ivs I]].
  unfold values in Ivs. apply in_map_iff in Ivs.
  destruct Ivs as [[c vs'] [E Ic]]. simpl in E. subst vs'.
  exists c, vs. split; [now apply In_dict_get | exact I].
Qed.

(** What a call that returns has checked, and what it returns. *)
Lemma remove_duplicate_values_ok (variables : dict (list string))
    (ranks : dict Z) (output : dict (list string)) :
  dict_wf variables ->
  remove_duplicate_values variables ranks = Ok output ->
  (forall c, In c (keys variables) -> In c (keys ranks)) /\
  (concat (values variables) = [] \/
   forall c, In c (keys ranks) -> In c (keys variables)) /\
  (forall c v, lists output c v <->
               lists variables c v /\ owner_is (owner variables ranks v) c = true).
Proof.
  intros W. unfold remove_duplicate_values.
  destruct (issubset _ _) eqn:G; cbn [negb]; [|discriminate].
  destruct (index_variables variables (keys ranks)
              (set_of (concat (values variables))) []) as [vc|] eqn:Ix;
    cbn [bind]; [|discriminate].
  destruct (index_variables_ok _ _ _ _ _ Ix) as [Evc Cases].
  match goal with |- context [build_output ?m _ _] => set (var_map := m) end.
  assert (Hmap : forall v, In v (concat (values variables)) ->
                 dict_get var_map v = Some (owner variables ranks v)).
  { intros v I. unfold var_map.
    rewrite (dict_get_fold_items
               (owner_of (concat (values variables)) (keys ranks)
                  (map fst (sorted_desc ranks)))).
    - rewrite Evc, (dict_get_fold_set (cats_of variables (keys ranks))).
      rewrite <- set_of_In in I. apply mem_In in I. now rewrite I.
    - rewrite Evc. apply fold_dict_set_wf. constructor. }
  destruct (build_output_spec var_map variables []) as [out [E Spec]].
  { intros cat vars v I Iv. eexists. apply Hmap.
    apply (lists_In_values variables cat). exists vars.
    split; [now apply In_dict_get | exact Iv]. }
  rewrite E. intros [= <-].
  split; [now apply ranked_guard|]. split.
  - destruct Cases as [U|All]; [left | now right].
    destruct (concat (values variables)) as [|v vs]; [reflexivity|].
    assert (I : In v (set_of (v :: vs))) by (apply set_of_In; now left).
    rewrite U in I. destruct I.
  - intros c v. rewrite Spec. split.
    + intros [[vs [F _]]|[vars [I [Iv [o [Go O]]]]]]; [discriminate|].
      assert (L : lists variables c v).
      { exists vars. split; [now apply In_dict_get | exact Iv]. }
      split; [exact L|].
      rewrite (Hmap v (lists_In_values _ _ _ L)) in Go. now injection Go as <-.
    + intros [[vars [Gv Iv]] O]. right. exists vars.
      split; [now apply dict_get_In|]. split; [exact Iv|].
      exists (owner variables ranks v). split; [|exact O].
      apply Hmap. apply (lists_In_values variables c). now exists vars.
Qed.

End Owners.


(** ** remove_duplicate_values: ownership *)

Section Ownership.

Context {so : SetOrder}.

Lemma cats_of_In (variables : dict (list string)) (categories : list string)
    (v c : string) :
  In c (cats_of variables categories v) <-> In c categories /\ lists variables c v.
Proof.
  unfold cats_of, lists. rewrite filter_In.
  destruct (dict_get variables c) as [vs|]; split.
  - intros [I M]. apply mem_In in M. eauto.
  - intros [I [vs' [[= <-] Iv]]]. split; [exact I | now apply mem_In].
  - intros [_ F]. discriminate.
  - intros [_ [vs [F _]]]. discriminate.
Qed.

Lemma collect_wf (var_map : dict (option string)) (cat : string)
    (vars : list string) (output output' : dict (list string)) :
  dict_wf output -> collect var_map cat vars output = Ok output' ->
  dict_wf output'.
Proof.
  revert output. induction vars as [|v rest IH]; intros output W; cbn [collect].
  - now intros [= <-].
  - destruct (getitem var_map v) as [o|]; cbn [bind]; [|discriminate].
    apply IH. destruct (owner_is o cat); [|exact W].
    unfold append_value. destruct (dict_get output cat); now apply dict_set_wf.
Qed.

Lemma build_output_wf (var_map : dict (option string))
    (items : list (string * list string)) (output output' : dict (list string)) :
  dict_wf output -> build_output var_map items output = Ok output' ->
  dict_wf output'.
Proof.
  revert output.
  induction items as [|[cat vars] rest IH]; intros output W; cbn [build_output].
  - now intros [= <-].
  - destruct (collect var_map cat vars output) as [out1|] eqn:E; cbn [bind];
      [|discriminate].
    apply IH. eapply collect_wf; eassumption.
Qed.

Lemma remove_duplicate_values_wf (variables : dict (list string))
    (ranks : dict Z) (output : dict (list string)) :
  remove_duplicate_values variables ranks = Ok output -> dict_wf output.
Proof.
  unfold remove_duplicate_values.
  destruct (negb _); [discriminate|].
  destruct (index_variables _ _ _ _); cbn [bind]; [|discriminate].
  apply build_output_wf. constructor.
Qed.

(** The owner of an observed variable, on inputs that pass the guard: the
    summary category under the frequency rule, otherwise a category of
    lowest rank among those that list the variable. *)
Lemma owner_some (variables : dict (list string)) (ranks : dict Z)
    (c0 v : string) :
  dict_wf ranks ->
  (forall c, In c (keys variables) -> In c (keys ranks)) ->
  lists variables c0 v ->
  exists c,
    owner variables ranks v = Some c /\
    lists variables c v /\
    (summary_rule (concat (values variables)) (keys ranks) v
       (cats_of variables (keys ranks) v) = true -> c = "summary") /\
    (summary_rule (concat (values variables)) (keys ranks) v
       (cats_of variables (keys ranks) v) = false ->
     select_top_priority (cats_of variables (keys ranks) v)
       (map fst (sorted_desc ranks)) = Some c /\
     forall c', lists variables c' v -> (rank_of ranks c <= rank_of ranks c')%Z).
Proof.
  intros W Sub L0. unfold owner, owner_of.
  set (cats := cats_of variables (keys ranks) v).
  destruct (summary_rule _ _ v cats) eqn:R.
  - exists "summary". split; [reflexivity|].
    unfold summary_rule in R. apply andb_true_iff in R. destruct R as [_ M].
    apply mem_In, cats_of_In in M.
    split; [tauto|]. split; [reflexivity | discriminate].
  - assert (I0 : In c0 cats).
    { apply cats_of_In. split; [|exact L0]. apply Sub.
      destruct L0 as [vs [G _]]. now apply dict_get_Some_key in G. }
    destruct (List.length cats) as [|n] eqn:Len.
    { destruct cats; [destruct I0 | discriminate]. }
    destruct (select_top_priority_lowest (rank_of ranks) n cats
                (map fst (sorted_desc ranks)) Len) as [c [E [Ic Min]]].
    + apply NoDup_filter, W.
    + intros x Ix. apply priorities_In. now apply cats_of_In in Ix.
    + now apply priorities_sorted.
    + exists c. split; [exact E|].
      split; [now apply cats_of_In in Ic|].
      split; [discriminate|]. intros _. split; [exact E|].
      intros c' L'. apply Min, cats_of_In. split; [|exact L'].
      apply Sub. destruct L' as [vs [G _]]. now apply dict_get_Some_key in G.
Qed.

(** The category under which the output lists an observed variable. *)
Lemma listed_under_owner (variables : dict (list string)) (ranks : dict Z)
    (output : dict (list string)) (v c : string) :
  dict_wf variables ->
  remove_duplicate_values variables ranks = Ok output ->
  owner variables ranks v = Some c ->
  lists variables c v ->
  lists output c v /\ forall c', lists output c' v -> c' = c.
Proof.
  intros W H O L.
  destruct (remove_duplicate_values_ok _ _ _ W H) as [_ [_ Spec]].
  split.
  - apply Spec. split; [exact L|]. rewrite O. simpl. apply String.eqb_refl.
  - intros c' L'. apply Spec in L'. destruct L' as [_ O'].
    rewrite O in O'. simpl in O'. apply String.eqb_eq in O'. congruence.
Qed.

(** C3. When the call returns, every observed variable is listed under
    exactly one category of the returned map, whose keys are pairwise
    distinct. *)
Theorem every_variable_has_one_owner (variables : dict (list string))
    (ranks : dict Z) (output : dict (list string)) :
  dict_wf variables ->
  dict_wf ranks ->
  remove_duplicate_values variables ranks = Ok output ->
  dict_wf output /\
  forall v, In v (concat (values variables)) ->
            exists c, lists output c v /\
                      forall c', lists output c' v -> c' = c.
Proof.
  intros W Wr H. split; [exact (remove_duplicate_values_wf _ _ _ H)|].
  intros v I.
  destruct (remove_duplicate_values_ok _ _ _ W H) as [Sub _].
  destruct (In_values_lists _ _ W I) as [c0 L0].
  destruct (owner_some variables ranks c0 v Wr Sub L0) as [c [O [L _]]].
  exists c. exact (listed_under_owner _ _ _ _ _ W H O L).
Qed.

(** C2. A variable that the summary category lists and that occurs more
    than 0.7 times the number of ranked categories is listed under summary,
    and under no other category, whatever the ranks are.  The number of
    ranked categories is below [2^49], where the conversion to a double is
    exact. *)
Theorem frequent_variable_goes_to_summary (variables : dict (list string))
    (ranks : dict Z) (output : dict (list string)) (v : string) :
  dict_wf variables ->
  dict_wf ranks ->
  remove_duplicate_values variables ranks = Ok output ->
  lists variables "summary" v ->
  7 * List.length (keys ranks) < 10 * count v (concat (values variables)) ->
  (Z.of_nat (List.length (keys ranks)) < 2 ^ 49)%Z ->
  lists output "summary" v /\ forall c, lists output c v -> c = "summary".
Proof.
  intros W Wr H L Gt Bound.
  destruct (remove_duplicate_values_ok _ _ _ W H) as [Sub _].
  destruct (owner_some variables ranks "summary" v Wr Sub L)
    as [c [O [Lc [Sum _]]]].
  assert (R : summary_rule (concat (values variables)) (keys ranks) v
                (cats_of variables (keys ranks) v) = true).
  { unfold summary_rule. apply andb_true_iff. split.
    - now apply gt_times_0_7_exact.
    - apply mem_In, cats_of_In. split; [|exact L]. apply Sub.
      destruct L as [vs [G _]]. now apply dict_get_Some_key in G. }
  rewrite (Sum R) in O.
  exact (listed_under_owner _ _ _ _ _ W H O L).
Qed.

(** C1, as the code has it.  A variable outside the frequency rule is
    listed under one category only: the one [select_top_priority] returns
    for its candidate categories, which lists the variable in the input and
    has the lowest rank among the categories that do. *)
Theorem elimination_keeps_lowest_rank (variables : dict (list string))
    (ranks : dict Z) (output : dict (list string)) (v : string) :
  dict_wf variables ->
  dict_wf ranks ->
  remove_duplicate_values variables ranks = Ok output ->
  In v (concat (values variables)) ->
  ~ (gt_times_0_7 (count v (concat (values variables)))
       (List.length (keys ranks)) = true /\
     lists variables "summary" v) ->
  exists c,
    select_top_priority (cats_of variables (keys ranks) v)
      (map fst (sorted_desc ranks)) = Some c /\
    lists output c v /\
    (forall c', lists output c' v -> c' = c) /\
    lists variables c v /\
    (forall c', lists variables c' v -> (rank_of ranks c <= rank_of ranks c')%Z).
Proof.
  intros W Wr H I Not.
  destruct (remove_duplicate_values_ok _ _ _ W H) as [Sub _].
  destruct (In_values_lists _ _ W I) as [c0 L0].
  destruct (owner_some variables ranks c0 v Wr Sub L0)
    as [c [O [L [_ Elim]]]].
  assert (R : summary_rule (concat (values variables)) (keys ranks) v
                (cats_of variables (keys ranks) v) = false).
  { unfold summary_rule.
    destruct (gt_times_0_7 _ _) eqn:G; [|reflexivity].
    destruct (mem "summary" _) eqn:M; [|reflexivity].
    exfalso. apply Not. split; [reflexivity|].
    apply mem_In, cats_of_In in M. tauto. }
  destruct (Elim R) as [E Min].
  destruct (listed_under_owner _ _ _ _ _ W H O L) as [Lo Uniq].
  exists c. auto.
Qed.

End Ownership.

Section OwnershipExamples.

Import Samples.

Ltac distinct_keys :=
  unfold dict_wf; simpl;
  repeat (constructor; [simpl; intuition discriminate|]); constructor.

Example seven_categories_output :
  remove_duplicate_values (so := insertion_order) seven_variables seven_ranks
  = Ok seven_output.
Proof. reflexivity. Qed.

(** Counterexample to C1: [x] is seen in A (rank 1) and B (rank 3), the
    summary rule does not apply, and the call gives [x] to A. *)
Lemma lower_rank_wins :
  summary_rule (concat (values ab_variables)) (keys ab_ranks) "x"
    (cats_of ab_variables (keys ab_ranks) "x") = false /\
  remove_duplicate_values (so := insertion_order) ab_variables ab_ranks
  = Ok [("A", ["x"])].
Proof. split; reflexivity. Qed.

(** Witness of C1 as amended, on the same input. *)
Lemma elimination_keeps_lowest_rank_witness :
  exists c,
    select_top_priority (cats_of ab_variables (keys ab_ranks) "x")
      (map fst (sorted_desc ab_ranks)) = Some c /\
    lists [("A", ["x"])] c "x" /\
    (forall c', lists [("A", ["x"])] c' "x" -> c' = c) /\
    lists ab_variables c "x" /\
    (forall c', lists ab_variables c' "x" ->
                (rank_of ab_ranks c <= rank_of ab_ranks c')%Z).
Proof.
  apply (elimination_keeps_lowest_rank (so := insertion_order)
           ab_variables ab_ranks [("A", ["x"])] "x").
  - distinct_keys.
  - distinct_keys.
  - reflexivity.
  - simpl. auto.
  - intros [_ [vs [G _]]]. discriminate G.
Defined.

(** Witness of C2: [player] is in summary and in five of seven
    categories. *)
Lemma frequent_variable_goes_to_summary_witness :
  count "player" (concat (values seven_variables)) = 5 /\
  List.length (keys seven_ranks) = 7 /\
  lists seven_output "summary" "player" /\
  (forall c, lists seven_output c "player" -> c = "summary").
Proof.
  split; [reflexivity|]. split; [reflexivity|].
  apply (frequent_variable_goes_to_summary (so := insertion_order)
           seven_variables seven_ranks seven_output "player").
  - distinct_keys.
  - distinct_keys.
  - reflexivity.
  - exists ["player"; "goals"]. split; [reflexivity | now left].
  - simpl. lia.
  - reflexivity.
Defined.

(** Witness of C3. *)
Lemma every_variable_has_one_owner_witness :
  dict_wf seven_output /\
  (forall v, In v (concat (values seven_variables)) ->
             exists c, lists seven_output c v /\
                       forall c', lists seven_output c' v -> c' = c).
Proof.
  apply (every_variable_has_one_owner (so := insertion_order)
           seven_variables seven_ranks seven_output).
  - distinct_keys.
  - distinct_keys.
  - reflexivity.
Defined.

End OwnershipExamples.


(** * Further properties *)

(** ** select_top_priority on arbitrary lists, and ties *)

Section Survivor.

Context {so : SetOrder}.

(* The list lemmas of the elimination section, at a rank that plays no role. *)
Let rf_In := remove_first_In (fun _ => 0%Z).
Let rf_keeps := remove_first_keeps (fun _ => 0%Z).
Let rf_NoDup := remove_first_NoDup (fun _ => 0%Z).
Let first_found := find_first (fun _ => 0%Z).

Lemma before_cons {A : Type} (a b y : A) (l : list A) :
  before a b l -> before a b (y :: l).
Proof.
  intros [l1 [l2 [-> I]]]. exists (y :: l1), l2. split; [reflexivity | exact I].
Qed.

Lemma before_head {A : Type} (a b : A) (l : list A) :
  In b l -> before a b (a :: l).
Proof. intros I. exists [], l. split; [reflexivity | exact I]. Qed.

Lemma before_cons_inv {A : Type} (a b y : A) (l : list A) :
  before a b (y :: l) -> (a = y /\ In b l) \/ before a b l.
Proof.
  intros [[|z l1] [l2 [E I]]]; simpl in E; injection E as <- ->.
  - left. auto.
  - right. exists l1, l2. auto.
Qed.

Lemma before_remove_first (p a b : string) (l : list string) :
  before a b (remove_first p l) -> before a b l.
Proof.
  induction l as [|y t IH]; simpl; [auto|].
  destruct (String.eqb p y).
  - apply before_cons.
  - intros H. apply before_cons_inv in H. destruct H as [[-> I]|H].
    + apply before_head. exact (rf_In _ _ _ I).
    + apply before_cons, IH, H.
Qed.

Lemma before_map_inv {A B : Type} (f : A -> B) (x y : B) (l : list A) :
  before x y (map f l) ->
  exists a b, f a = x /\ f b = y /\ before a b l.
Proof.
  intros [l1 [l2 [E I]]].
  apply map_eq_app in E. destruct E as [m1 [m2 [-> [<- E2]]]].
  apply map_eq_cons in E2. destruct E2 as [a [m3 [-> [<- <-]]]].
  apply in_map_iff in I. destruct I as [b [<- Ib]].
  exists a, b. split; [reflexivity|]. split; [reflexivity|].
  exists m1, m3. auto.
Qed.

Lemma before_map {A B : Type} (f : A -> B) (a b : A) (l : list A) :
  before a b l -> before (f a) (f b) (map f l).
Proof.
  intros [l1 [l2 [-> I]]]. exists (map f l1), (map f l2).
  rewrite map_app. split; [reflexivity | now apply in_map].
Qed.

(** X1. Whatever the two lists are, a category returned by
    [select_top_priority] is one of the items passed in. *)
Theorem select_top_priority_member (items priority : list string) (c : string) :
  select_top_priority items priority = Some c -> In c items.
Proof.
  remember (List.length items) as n eqn:L.
  revert items priority L.
  induction n as [n IH] using lt_wf_ind. intros items priority L.
  rewrite select_top_priority_unfold.
  destruct items as [|x [|y t]].
  - destruct (find _ priority) as [p|] eqn:F; [|discriminate].
    apply find_some in F. destruct F as [_ F]. discriminate.
  - intros [= <-]. now left.
  - set (items := x :: y :: t) in *.
    destruct (find _ priority) as [p|] eqn:F; [|discriminate].
    apply find_some in F. destruct F as [_ F].
    pose proof (remove_first_length p items F) as L'.
    intros H. apply (rf_In p).
    apply (IH (List.length (remove_first p items)))
      with (priority := remove_first p priority);
      [lia | reflexivity | exact H].
Qed.

(** The survivor of the elimination. *)
Lemma select_top_priority_last_item (items priority : list string) :
  items <> [] ->
  NoDup items ->
  incl items priority ->
  exists c, select_top_priority items priority = Some c /\ In c items /\
            forall x, In x items -> x <> c -> before x c priority.
Proof.
  remember (List.length items) as n eqn:L.
  revert items priority L.
  induction n as [n IH] using lt_wf_ind. intros items priority L NE ND Inc.
  rewrite select_top_priority_unfold.
  destruct items as [|x [|y t]]; [congruence | |].
  - exists x. split; [reflexivity|]. split; [now left|].
    intros z [<-|[]] N. congruence.
  - set (items := x :: y :: t) in *.
    destruct (find (fun p => mem p items) priority) as [p|] eqn:F.
    + destruct (first_found _ _ _ F) as [l1 [l2 [E [Before Hp]]]].
      pose proof (remove_first_length p items Hp) as L'.
      apply mem_In in Hp.
      destruct (rf_NoDup p items ND) as [ND' Np].
      destruct (IH (List.length (remove_first p items)))
        with (items := remove_first p items)
             (priority := remove_first p priority) as [c [R [Ic Last]]].
      * lia.
      * reflexivity.
      * destruct (remove_first p items); [simpl in L'; unfold items in L';
          simpl in L'; lia | discriminate].
      * exact ND'.
      * intros z Iz. apply rf_keeps.
        -- apply Inc. exact (rf_In _ _ _ Iz).
        -- intros ->. tauto.
      * exists c. split; [exact R|].
        assert (Ic' : In c items) by exact (rf_In _ _ _ Ic).
        split; [exact Ic'|].
        intros z Iz Nz. destruct (string_dec z p) as [->|Nzp].
        -- assert (Cp : c <> p) by (intros ->; tauto).
           pose proof (Inc c Ic') as Ipr. rewrite E in Ipr |- *.
           apply in_app_or in Ipr. destruct Ipr as [I1|[Eq|I2]].
           ++ apply Before in I1. apply mem_In in Ic'. congruence.
           ++ congruence.
           ++ exists l1, l2. auto.
        -- apply (before_remove_first p).
           apply Last; [now apply rf_keeps | exact Nz].
    + exfalso. pose proof (find_none _ _ F x (Inc x (or_introl eq_refl))) as M.
      simpl in M. rewrite String.eqb_refl in M. discriminate.
Qed.

(** X2. On duplicate-free items that all occur in [priority], the item
    returned is the one that comes last in [priority]: every other item
    stands before it there. *)
Theorem select_top_priority_last (items priority : list string) :
  items <> [] ->
  NoDup items ->
  incl items priority ->
  exists c, select_top_priority items priority = Some c /\ In c items /\
            forall x, In x items -> x <> c -> before x c priority.
Proof. exact (select_top_priority_last_item items priority). Qed.

Lemma insert_desc_before (x a b : string * Z) (s : list (string * Z)) :
  before a b (insert_desc x s) ->
  before a b s \/ (a = x /\ In b s) \/ (b = x /\ (snd x < snd a)%Z).
Proof.
  induction s as [|y t IH]; simpl.
  - intros [[|z l1] [l2 [E I]]]; simpl in E; injection E as _ E.
    + subst l2. destruct I.
    + destruct l1; discriminate.
  - destruct (Z.ltb_spec (snd x) (snd y)) as [Lt|Ge]; intros H;
      apply before_cons_inv in H; destruct H as [[-> I]|H].
    + apply (Permutation_in _ (insert_desc_perm x t)) in I.
      destruct I as [<-|I]; [right; right; auto|].
      left. now apply before_head.
    + destruct (IH H) as [B|[[-> I]|[-> Lt']]].
      * left. now apply before_cons.
      * right. left. split; [reflexivity | now right].
      * right. right. auto.
    + right. left. auto.
    + left. exact H.
Qed.

(** The sort keeps entries of equal rank in the order of the dict. *)
Lemma sorted_desc_stable (a b : string * Z) (l : list (string * Z)) :
  before a b (sorted_desc l) -> snd a = snd b -> before a b l.
Proof.
  induction l as [|x t IH]; simpl; intros H E.
  - destruct H as [[|? ?] [? [F _]]]; discriminate.
  - apply insert_desc_before in H. destruct H as [B|[[-> I]|[-> Lt]]].
    + apply before_cons, IH; assumption.
    + apply before_head.
      now apply (Permutation_in _ (sorted_desc_perm t)).
    + lia.
Qed.

(** The survivor among candidates of equal rank. *)
Lemma priorities_tie (ranks : dict Z) (c' c : string) :
  dict_wf ranks ->
  before c' c (map fst (sorted_desc ranks)) ->
  rank_of ranks c' = rank_of ranks c ->
  before c' c (keys ranks).
Proof.
  intros W B E. apply before_map_inv in B.
  destruct B as [a [b [<- [<- B]]]].
  assert (Ia : In a (sorted_desc ranks)).
  { destruct B as [l1 [l2 [-> _]]]. apply in_or_app. right. now left. }
  assert (Ib : In b (sorted_desc ranks)).
  { destruct B as [l1 [l2 [-> I]]]. apply in_or_app. right. now right. }
  apply (Permutation_in _ (sorted_desc_perm ranks)) in Ia, Ib.
  rewrite (rank_of_In _ _ W Ia), (rank_of_In _ _ W Ib) in E.
  apply before_map. now apply sorted_desc_stable.
Qed.

End Survivor.


(** ** remove_duplicate_values: when it returns and what it returns *)

Section Returned.

Context {so : SetOrder}.

Lemma set_of_nil : set_of [] = [].
Proof.
  unfold set_of. simpl. apply Permutation_nil, Permutation_sym, set_iter_perm.
Qed.

Lemma index_variables_all (variables : dict (list string))
    (categories unique_vars : list string) (acc : dict (list string)) :
  (forall c, In c categories -> In c (keys variables)) ->
  index_variables variables categories unique_vars acc =
  Ok (fold_left (fun vc var => dict_set vc var (cats_of variables categories var))
        unique_vars acc).
Proof.
  intros All. revert acc.
  induction unique_vars as [|var rest IH]; intros acc; cbn [index_variables].
  - reflexivity.
  - rewrite (cat_list_of_ok _ _ _ _ All). cbn [bind app fold_left]. apply IH.
Qed.

(** The entry of [var_map] for an observed variable. *)
Lemma var_map_lookup (variables : dict (list string)) (ranks : dict Z)
    (v : string) :
  In v (concat (values variables)) ->
  dict_get
    (fold_left
       (fun vm '(var, cats) =>
          dict_set vm var
            (owner_of (concat (values variables)) (keys ranks)
               (map fst (sorted_desc ranks)) var cats))
       (fold_left
          (fun vc var => dict_set vc var (cats_of variables (keys ranks) var))
          (set_of (concat (values variables))) [])
       []) v
  = Some (owner variables ranks v).
Proof.
  intros I.
  rewrite (dict_get_fold_items
             (owner_of (concat (values variables)) (keys ranks)
                (map fst (sorted_desc ranks)))).
  - rewrite (dict_get_fold_set (cats_of variables (keys ranks))).
    rewrite <- set_of_In in I. apply mem_In in I. now rewrite I.
  - apply fold_dict_set_wf. constructor.
Qed.

Lemma In_values (variables : dict (list string)) (c v : string)
    (vs : list string) :
  In (c, vs) variables -> In v vs -> In v (concat (values variables)).
Proof.
  intros I Iv. apply in_concat. exists vs. split; [|exact Iv].
  unfold values. change vs with (snd (c, vs)). now apply in_map.
Qed.

(** The call returns on exactly these inputs. *)
Lemma remove_duplicate_values_returns (variables : dict (list string))
    (ranks : dict Z) :
  (forall c, In c (keys variables) -> In c (keys ranks)) ->
  concat (values variables) = [] \/
  (forall c, In c (keys ranks) -> In c (keys variables)) ->
  exists output, remove_duplicate_values variables ranks = Ok output.
Proof.
  intros Sub Cases. unfold remove_duplicate_values.
  apply ranked_guard in Sub. rewrite Sub. cbn [negb].
  assert (Ix : index_variables variables (keys ranks)
                 (set_of (concat (values variables))) [] =
               Ok (fold_left
                     (fun vc var =>
                        dict_set vc var (cats_of variables (keys ranks) var))
                     (set_of (concat (values variables))) [])).
  { destruct Cases as [E|All]; [|now apply index_variables_all].
    rewrite E, set_of_nil. reflexivity. }
  rewrite Ix. cbn [bind].
  match goal with |- context [build_output ?m _ _] =>
    destruct (build_output_spec m variables []) as [out [E _]] end.
  - intros cat vars v I Iv. eexists. apply var_map_lookup.
    exact (In_values _ _ _ _ I Iv).
  - exists out. exact E.
Qed.

Lemma dict_get_app_last {V : Type} (d : dict V) (k : string) (v : V) :
  ~ In k (keys d) -> dict_get (d ++ [(k, v)]) k = Some v.
Proof.
  induction d as [|[k0 v0] t IH]; simpl; intros N.
  - now rewrite String.eqb_refl.
  - destruct (String.eqb_spec k k0) as [->|_]; [tauto | apply IH; tauto].
Qed.

Lemma dict_set_app_last {V : Type} (d : dict V) (k : string) (v v' : V) :
  ~ In k (keys d) -> dict_set (d ++ [(k, v)]) k v' = d ++ [(k, v')].
Proof.
  induction d as [|[k0 v0] t IH]; simpl; intros N.
  - now rewrite String.eqb_refl.
  - destruct (String.eqb_spec k k0) as [->|_]; [tauto|].
    rewrite IH; [reflexivity | tauto].
Qed.

Lemma collect_last (var_map : dict (option string)) (cat : string)
    (vars : list string) (out0 : dict (list string)) (acc : list string) :
  ~ In cat (keys out0) ->
  (forall v, In v vars -> exists o, dict_get var_map v = Some o) ->
  collect var_map cat vars (out0 ++ [(cat, acc)])
  = Ok (out0 ++ [(cat, acc ++ kept var_map cat vars)]).
Proof.
  intros N. revert acc.
  induction vars as [|v rest IH]; intros acc Total; cbn [collect kept filter].
  - now rewrite app_nil_r.
  - destruct (Total v (or_introl eq_refl)) as [o G].
    unfold getitem. rewrite G. cbn [bind].
    destruct (owner_is o cat).
    + unfold append_value.
      rewrite (dict_get_app_last _ _ _ N), (dict_set_app_last _ _ _ _ N).
      rewrite IH by (intros x I; apply Total; now right).
      now rewrite <- app_assoc.
    + apply IH. intros x I. apply Total. now right.
Qed.

Lemma collect_fresh (var_map : dict (option string)) (cat : string)
    (vars : list string) (out0 : dict (list string)) :
  ~ In cat (keys out0) ->
  (forall v, In v vars -> exists o, dict_get var_map v = Some o) ->
  collect var_map cat vars out0
  = Ok (if truthy (kept var_map cat vars)
        then out0 ++ [(cat, kept var_map cat vars)] else out0).
Proof.
  intros N.
  induction vars as [|v rest IH]; intros Total; cbn [collect kept filter].
  - reflexivity.
  - destruct (Total v (or_introl eq_refl)) as [o G].
    unfold getitem. rewrite G. cbn [bind].
    destruct (owner_is o cat).
    + unfold append_value.
      rewrite (proj2 (dict_get_None _ _) N), (dict_set_fresh _ _ _ N).
      rewrite collect_last; [reflexivity | exact N |].
      intros x I. apply Total. now right.
    + apply IH. intros x I. apply Total. now right.
Qed.

Lemma build_output_closed (var_map : dict (option string))
    (items : list (string * list string)) (out0 : dict (list string)) :
  NoDup (keys out0 ++ keys items) ->
  (forall cat vars v, In (cat, vars) items -> In v vars ->
                      exists o, dict_get var_map v = Some o) ->
  build_output var_map items out0
  = Ok (out0 ++
        filter (fun kv => truthy (snd kv))
          (map (fun kv => (fst kv, kept var_map (fst kv) (snd kv))) items)).
Proof.
  revert out0.
  induction items as [|[cat vars] rest IH]; intros out0 ND Total;
    cbn [build_output map filter].
  - now rewrite app_nil_r.
  - assert (N : ~ In cat (keys out0)).
    { intros I. simpl in ND. apply NoDup_remove_2 in ND. apply ND.
      apply in_or_app. now left. }
    rewrite (collect_fresh _ _ _ _ N)
      by (intros v I; eapply Total; [now left | exact I]).
    cbn [bind fst snd].
    rewrite IH.
    + destruct (truthy (kept var_map cat vars)); [|reflexivity].
      now rewrite <- app_assoc.
    + destruct (truthy (kept var_map cat vars)).
      * unfold keys in *. rewrite map_app, <- app_assoc. exact ND.
      * simpl in ND. apply NoDup_remove_1 in ND. exact ND.
    + intros c vs v I Iv. eapply Total; [right; exact I | exact Iv].
Qed.

(** The returned map in closed form. *)
Lemma remove_duplicate_values_closed (variables : dict (list string))
    (ranks : dict Z) (output : dict (list string)) :
  dict_wf variables ->
  remove_duplicate_values variables ranks = Ok output ->
  output =
  filter (fun kv => truthy (snd kv))
    (map (fun kv =>
            (fst kv,
             filter (fun v => owner_is (owner variables ranks v) (fst kv))
               (snd kv)))
       variables).
Proof.
  intros W. unfold remove_duplicate_values.
  destruct (issubset _ _); cbn [negb]; [|discriminate].
  destruct (index_variables variables (keys ranks)
              (set_of (concat (values variables))) []) as [vc|] eqn:Ix;
    cbn [bind]; [|discriminate].
  destruct (index_variables_ok _ _ _ _ _ Ix) as [-> _].
  rewrite build_output_closed.
  - intros [= <-]. simpl. f_equal.
    apply map_ext_in. intros [c vs] I. simpl. f_equal.
    unfold kept. apply filter_ext_in. intros v Iv.
    now rewrite (var_map_lookup _ _ _ (In_values _ _ _ _ I Iv)).
  - exact W.
  - intros cat vars v I Iv. eexists. apply var_map_lookup.
    exact (In_values _ _ _ _ I Iv).
Qed.

End Returned.


Section ReturnedTheorems.

Context {so : SetOrder}.

(** X3. [remove_duplicate_values] returns exactly when every observed
    category is ranked and, unless no variable at all was observed, every
    ranked category was observed. *)
Theorem remove_duplicate_values_returns_iff (variables : dict (list string))
    (ranks : dict Z) :
  dict_wf variables ->
  ((exists output, remove_duplicate_values variables ranks = Ok output) <->
   (forall c, In c (keys variables) -> In c (keys ranks)) /\
   (concat (values variables) = [] \/
    forall c, In c (keys ranks) -> In c (keys variables))).
Proof.
  intros W. split.
  - intros [output H].
    destruct (remove_duplicate_values_ok _ _ _ W H) as [Sub [Cases _]]. auto.
  - intros [Sub Cases]. now apply remove_duplicate_values_returns.
Qed.

(** X4. The returned map is the input map with, under each category, only
    the variables that category owns, in their input order; a category left
    with no variable is dropped, the others keep their order. *)
Theorem remove_duplicate_values_keeps_order (variables : dict (list string))
    (ranks : dict Z) (output : dict (list string)) :
  dict_wf variables ->
  remove_duplicate_values variables ranks = Ok output ->
  output =
  filter (fun kv => truthy (snd kv))
    (map (fun kv =>
            (fst kv,
             filter (fun v => owner_is (owner variables ranks v) (fst kv))
               (snd kv)))
       variables).
Proof. exact (remove_duplicate_values_closed variables ranks output). Qed.

(** X5. A variable observed in one category only stays in that category. *)
Theorem single_category_variable_stays (variables : dict (list string))
    (ranks : dict Z) (output : dict (list string)) (c v : string) :
  dict_wf variables ->
  dict_wf ranks ->
  remove_duplicate_values variables ranks = Ok output ->
  lists variables c v ->
  (forall c', lists variables c' v -> c' = c) ->
  lists output c v.
Proof.
  intros W Wr H L Only.
  destruct (remove_duplicate_values_ok _ _ _ W H) as [Sub _].
  destruct (owner_some variables ranks c v Wr Sub L) as [c2 [O [L2 _]]].
  rewrite (Only c2 L2) in O.
  exact (proj1 (listed_under_owner _ _ _ _ _ W H O L)).
Qed.

(** X6. Outside the frequency rule, a variable whose lowest-ranked
    candidate categories tie goes to the one of them that comes last in the
    ranks mapping: every other candidate of the same rank as the owner
    stands before the owner there. *)
Theorem equal_ranks_last_wins (variables : dict (list string))
    (ranks : dict Z) (output : dict (list string)) (v c c' : string) :
  dict_wf variables ->
  dict_wf ranks ->
  remove_duplicate_values variables ranks = Ok output ->
  summary_rule (concat (values variables)) (keys ranks) v
    (cats_of variables (keys ranks) v) = false ->
  lists output c v ->
  lists variables c' v ->
  c' <> c ->
  rank_of ranks c' = rank_of ranks c ->
  before c' c (keys ranks).
Proof.
  intros W Wr H R Lo L' N E.
  destruct (remove_duplicate_values_ok _ _ _ W H) as [Sub [_ Spec]].
  apply Spec in Lo. destruct Lo as [L O].
  unfold owner, owner_of in O. rewrite R in O.
  set (cats := cats_of variables (keys ranks) v) in *.
  assert (In_cats : forall x, lists variables x v -> In x cats).
  { intros x Lx. apply cats_of_In. split; [|exact Lx]. apply Sub.
    destruct Lx as [vs [G _]]. now apply dict_get_Some_key in G. }
  destruct (select_top_priority_last_item cats (map fst (sorted_desc ranks)))
    as [c2 [S [_ Last]]].
  - intros Nil. pose proof (In_cats c L) as I. rewrite Nil in I. destruct I.
  - apply NoDup_filter, Wr.
  - intros x Ix. apply priorities_In. now apply cats_of_In in Ix.
  - rewrite S in O. simpl in O. apply String.eqb_eq in O. subst c2.
    apply priorities_tie; [exact Wr | | exact E].
    apply Last; [now apply In_cats | exact N].
Qed.

(** X7. The test of the frequency rule never passes below 70%: when
    [count > n * 0.7] holds for the code, the count is at least seven
    tenths of [n] (for [n] below [2^48]). *)
Theorem gt_times_0_7_at_least (c n : nat) :
  (Z.of_nat n < 2 ^ 48)%Z ->
  gt_times_0_7 c n = true ->
  7 * n <= 10 * c.
Proof.
  intros Bound. unfold gt_times_0_7, times_0_7, round_53, double_0_7.
  set (p := (Z.of_nat n * 6305039478318694)%Z).
  assert (P0 : (0 <= p)%Z) by (unfold p; lia).
  change (2 ^ 53)%Z with 9007199254740992%Z.
  change (2 ^ 48)%Z with 281474976710656%Z in Bound.
  destruct (Z.leb_spec (Z.log2 p + 1) 53) as [Small|Big].
  - intros H. apply Z.ltb_lt in H. unfold p in H. lia.
  - assert (Pos : (0 < p)%Z).
    { destruct (Z.eq_dec p 0) as [E|]; [rewrite E in Big; simpl in Big; lia | lia]. }
    set (s := (Z.log2 p + 1 - 53)%Z) in *.
    assert (Hs : (0 < s)%Z) by (unfold s; lia).
    pose proof (Z.log2_spec p Pos) as [Lo _].
    replace (Z.log2 p) with (s + 52)%Z in Lo by (unfold s; lia).
    rewrite Z.pow_add_r in Lo by lia.
    change (2 ^ 52)%Z with 4503599627370496%Z in Lo.
    assert (T : (0 < 2 ^ s)%Z) by (apply Z.pow_pos_nonneg; lia).
    pose proof (Z.div_mod p (2 ^ s) ltac:(lia)) as DM.
    pose proof (Z.mod_pos_bound p (2 ^ s) T) as MB.
    set (q := (p / 2 ^ s)%Z) in *.
    set (r := (p mod 2 ^ s)%Z) in *.
    set (t := (2 ^ s)%Z) in *.
    assert (Up : (q <= (if (2 ^ (s - 1) <? r) || ((r =? 2 ^ (s - 1)) && Z.odd q)
                        then q + 1 else q))%Z)
      by (destruct (_ || _); lia).
    match type of Up with (_ <= ?e)%Z => set (q' := e) in * end.
    intros H. apply Z.ltb_lt in H.
    assert (Low : (p - t < q' * t)%Z) by nia.
    unfold p in *. clearbody q' q r t. nia.
Qed.

End ReturnedTheorems.


(** ** Discovery: the entries, the labels and the variables *)

Section Entries.

Context {so : SetOrder}.

Lemma label_tables_inv (ids : list string) (ts : list table)
    (acc r : list (table * string)) :
  label_tables ids ts acc = Ok r ->
  exists ls,
    r = acc ++ ls /\ map fst ls = ts /\
    (forall t l, In (t, l) ls -> In t ts /\ table_label ids t = Ok l) /\
    (ts <> [] -> 2 <= List.length ids).
Proof.
  revert acc. induction ts as [|t rest IH]; intros acc; cbn [label_tables].
  - intros [= <-]. exists []. rewrite app_nil_r.
    split; [reflexivity|]. split; [reflexivity|].
    split; [intros t' l' [] | congruence].
  - destruct (table_label ids t) as [l|] eqn:E; cbn [bind]; [|discriminate].
    intros H. destruct (IH _ H) as [ls [-> [M [Lab _]]]].
    exists ((t, l) :: ls). rewrite <- app_assoc. simpl.
    split; [reflexivity|]. split; [now rewrite M|]. split.
    + intros t' l' [[= <- <-]|I]; [split; [now left | exact E]|].
      destruct (Lab _ _ I). split; [now right | assumption].
    + intros _. unfold table_label in E.
      destruct ids as [|i0 [|i1 ids]]; try discriminate. simpl. lia.
Qed.

Lemma get_table_types_from_inv (urls : list page)
    (acc ts : list (table * string)) :
  get_table_types_from urls acc = Ok (Some ts) ->
  exists ls,
    ts = acc ++ ls /\
    map fst ls = concat (map all_tables urls) /\
    (forall p, In p urls ->
               all_tables p <> [] /\ 2 <= List.length (squad_ids p)) /\
    (forall t l, In (t, l) ls ->
                 exists p, In p urls /\ In t (all_tables p) /\
                           table_label (squad_ids p) t = Ok l).
Proof.
  revert acc.
  induction urls as [|p rest IH]; intros acc; cbn [get_table_types_from].
  - intros [= <-]. exists []. rewrite app_nil_r. simpl.
    split; [reflexivity|]. split; [reflexivity|].
    split; [intros p [] | intros t l []].
  - destruct (all_tables p) as [|t0 ts0] eqn:A; [discriminate|].
    destruct (label_tables (squad_ids p) (t0 :: ts0) acc) as [r|] eqn:L;
      cbn [bind]; [|discriminate].
    intros H.
    destruct (label_tables_inv _ _ _ _ L) as [l1 [-> [M1 [Lab1 Ids]]]].
    destruct (IH _ H) as [l2 [-> [M2 [Pages Lab2]]]].
    exists (l1 ++ l2). rewrite <- app_assoc. split; [reflexivity|].
    split; [|split].
    + simpl. rewrite map_app, M1, M2, A. reflexivity.
    + intros q [<-|I]; [|auto]. rewrite A. split; [discriminate|].
      apply Ids. discriminate.
    + intros t l I. apply in_app_or in I. destruct I as [I|I].
      * destruct (Lab1 _ _ I) as [It E]. exists p. rewrite A.
        split; [now left | auto].
      * destruct (Lab2 _ _ I) as [q [Iq R]]. exists q.
        split; [now right | exact R].
Qed.

(** X8. When [get_table_types] returns a mapping, it has one entry per
    stats table of every page, in page and document order; every page has
    such a table and names two squads, and each entry holds the label of
    its table. *)
Theorem get_table_types_entries (urls : list page) (ts : list (table * string)) :
  get_table_types urls = Ok (Some ts) ->
  map fst ts = concat (map all_tables urls) /\
  (forall p, In p urls ->
             all_tables p <> [] /\ 2 <= List.length (squad_ids p)) /\
  (forall t l, In (t, l) ts ->
               exists p, In p urls /\ In t (all_tables p) /\
                         table_label (squad_ids p) t = Ok l).
Proof.
  intros H. destruct (get_table_types_from_inv _ _ _ H) as [ls [-> R]].
  exact R.
Qed.

(** X9. A page that has stats tables and names fewer than two squads makes
    [get_table_types] raise [IndexError], provided every page before it has
    stats tables and names two squads. *)
Theorem short_squad_list_raises (before_p after_p : list page) (p : page) :
  (forall q, In q before_p ->
             all_tables q <> [] /\ 2 <= List.length (squad_ids q)) ->
  all_tables p <> [] ->
  List.length (squad_ids p) < 2 ->
  get_table_types (before_p ++ p :: after_p) = Raise IndexError.
Proof.
  intros Pre A Short. unfold get_table_types. generalize (@nil (table * string)).
  induction before_p as [|q rest IH]; intros acc; cbn [app get_table_types_from].
  - destruct (all_tables p) as [|t ts]; [congruence|].
    cbn [label_tables]. unfold table_label.
    destruct (squad_ids p) as [|i0 [|i1 ids]]; simpl in Short; try lia;
      reflexivity.
  - destruct (Pre q (or_introl eq_refl)) as [Aq Iq].
    destruct (all_tables q) as [|t ts] eqn:E; [congruence|].
    destruct (label_tables_ok (squad_ids q) (t :: ts) acc Iq) as [ls [L _]].
    rewrite L. cbn [bind]. apply IH. intros x Ix. apply Pre. now right.
Qed.

Lemma lstrip_list_head (cs s : list ascii) (c : ascii) (r : list ascii) :
  lstrip_list cs s = c :: r -> ascii_mem c cs = false.
Proof.
  induction s as [|a t IH]; simpl; [discriminate|].
  destruct (ascii_mem a cs) eqn:M; [exact IH|].
  intros [= <- _]. exact M.
Qed.

Lemma lstrip_list_suffix (cs s : list ascii) :
  exists pre, s = pre ++ lstrip_list cs s.
Proof.
  induction s as [|a t [pre IH]]; simpl; [now exists []|].
  destruct (ascii_mem a cs).
  - exists (a :: pre). simpl. now rewrite <- IH.
  - now exists [].
Qed.

(** What [strip] leaves at the two ends. *)
Lemma strip_ends (s chars : string) :
  let cs := list_ascii_of_string chars in
  let l := list_ascii_of_string (strip s chars) in
  (forall c r, l = c :: r -> ascii_mem c cs = false) /\
  (forall c r, l = r ++ [c] -> ascii_mem c cs = false).
Proof.
  cbv zeta. unfold strip. rewrite list_ascii_of_string_of_list_ascii.
  set (cs := list_ascii_of_string chars).
  set (left := lstrip_list cs (list_ascii_of_string s)).
  set (R := lstrip_list cs (rev left)).
  split.
  - intros c r E.
    destruct (lstrip_list_suffix cs (rev left)) as [pre P]. fold R in P.
    assert (L : left = rev R ++ rev pre).
    { rewrite <- (rev_involutive left), P, rev_app_distr. reflexivity. }
    rewrite E in L. simpl in L.
    exact (lstrip_list_head cs _ _ _ L).
  - intros c r E.
    assert (RR : R = c :: rev r).
    { rewrite <- (rev_involutive R), E, rev_app_distr. reflexivity. }
    exact (lstrip_list_head cs _ _ _ RR).
Qed.

(** X10. A label never begins or ends with a space or an underscore. *)
Theorem table_label_margins (ids : list string) (t : table) (l : string) :
  table_label ids t = Ok l ->
  (forall c r, list_ascii_of_string l = c :: r ->
               ascii_mem c label_margin = false) /\
  (forall c r, list_ascii_of_string l = r ++ [c] ->
               ascii_mem c label_margin = false).
Proof.
  unfold table_label. destruct ids as [|i0 [|i1 ids]]; try discriminate.
  intros [= <-]. apply strip_ends.
Qed.

Lemma add_variable_lists (av : dict (list string)) (cat v c x : string) :
  lists (add_variable av cat v) c x <-> lists av c x \/ (c = cat /\ x = v).
Proof.
  unfold lists, add_variable.
  destruct (dict_get av cat) as [vs|] eqn:G.
  - destruct (mem v vs) eqn:M.
    + split; [auto|]. intros [H|[-> ->]]; [exact H|].
      exists vs. split; [exact G | now apply mem_In].
    + rewrite dict_get_set. destruct (String.eqb_spec c cat) as [->|Hc].
      * rewrite G. split.
        -- intros [l [[= <-] I]]. apply in_app_or in I.
           destruct I as [I|[<-|[]]]; [left; eauto | auto].
        -- intros [[l [[= <-] I]]|[_ ->]]; eexists; split; try reflexivity;
             apply in_or_app; simpl; auto.
      * split; [auto | intros [H|[E _]]; [exact H | congruence]].
  - rewrite dict_get_set. destruct (String.eqb_spec c cat) as [->|Hc].
    + rewrite G. split.
      * intros [l [[= <-] [<-|[]]]]. auto.
      * intros [[l [E _]]|[_ ->]]; [discriminate|].
        eexists; split; [reflexivity | now left].
    + split; [auto | intros [H|[E _]]; [exact H | congruence]].
Qed.

Lemma add_variable_tidy (av : dict (list string)) (cat v : string) :
  tidy av -> tidy (add_variable av cat v).
Proof.
  intros [W T]. unfold add_variable.
  destruct (dict_get av cat) as [vs|] eqn:G.
  - destruct (mem v vs) eqn:M; [now split|].
    split; [now apply dict_set_wf|].
    intros c l. rewrite dict_get_set.
    destruct (String.eqb c cat); [|apply T].
    intros [= <-]. destruct (T _ _ G) as [ND _]. split.
    + apply NoDup_rev in ND. rewrite <- (rev_involutive (vs ++ [v])).
      apply NoDup_rev. rewrite rev_app_distr. simpl.
      constructor; [|exact ND]. rewrite <- in_rev. now apply mem_false.
    + destruct vs; discriminate.
  - split; [now apply dict_set_wf|].
    intros c l. rewrite dict_get_set.
    destruct (String.eqb c cat); [|apply T].
    intros [= <-]. split; [|discriminate].
    constructor; [simpl; tauto | constructor].
Qed.

Lemma gather_spec (ts : list (table * string)) (acc : dict (list string)) :
  tidy acc ->
  tidy (gather ts acc) /\
  forall c v, lists (gather ts acc) c v <->
              lists acc c v \/ exists t, In (t, c) ts /\ In v (header t).
Proof.
  revert acc. induction ts as [|[t cat] rest IH]; intros acc T; simpl.
  - split; [exact T|]. intros c v. split; [auto | intros [H|[t [[] _]]]; exact H].
  - assert (Row : forall vars av, tidy av ->
              tidy (fold_left (fun av v => add_variable av cat v) vars av) /\
              forall c v,
                lists (fold_left (fun av v => add_variable av cat v) vars av) c v
                <-> lists av c v \/ (c = cat /\ In v vars)).
    { induction vars as [|x xs IHx]; intros av Tav; simpl.
      - split; [exact Tav|]. intros c v. tauto.
      - destruct (IHx _ (add_variable_tidy av cat x Tav)) as [T' S'].
        split; [exact T'|]. intros c v.
        rewrite S', add_variable_lists. intuition (subst; auto). }
    destruct (Row (header t) acc T) as [T1 S1].
    destruct (IH _ T1) as [T2 S2]. split; [exact T2|].
    intros c v. unfold gather in S2. rewrite S2, S1. split.
    + intros [[L|[-> I]]|[t' [I Iv]]]; auto.
      * right. exists t. split; [now left | exact I].
      * right. exists t'. split; [now right | exact Iv].
    + intros [L|[t' [[[= <- <-]|I] Iv]]]; auto.
      right. exists t'. auto.
Qed.

(** What [get_all_variables] returns. *)
Lemma get_all_variables_inv (urls : list page) (d : dict (list string)) :
  get_all_variables urls = Ok d ->
  exists ts,
    get_table_types urls = Ok (Some ts) /\ ts <> [] /\
    tidy d /\
    forall c v, lists d c v <-> exists t, In (t, c) ts /\ In v (header t).
Proof.
  unfold get_all_variables.
  destruct (get_table_types urls) as [[[|e ts]|]|]; cbn [bind]; try discriminate.
  intros [= <-]. exists (e :: ts). split; [reflexivity|]. split; [discriminate|].
  destruct (gather_spec (e :: ts) []) as [T S].
  { split; [constructor | discriminate]. }
  split; [exact T|]. intros c v. unfold gather in S. rewrite S.
  split; [intros [[vs [F _]]|H]; [discriminate | exact H] | auto].
Qed.

(** X11. When [get_all_variables] returns, its categories are pairwise
    distinct, no list is empty or repeats a variable, and a category lists
    a variable exactly when a table with that label has it in its header. *)
Theorem get_all_variables_collects (urls : list page) (d : dict (list string)) :
  get_all_variables urls = Ok d ->
  exists ts,
    get_table_types urls = Ok (Some ts) /\
    dict_wf d /\
    (forall c vs, dict_get d c = Some vs -> NoDup vs /\ vs <> []) /\
    (forall c v, lists d c v <-> exists t, In (t, c) ts /\ In v (header t)).
Proof.
  intros H. destruct (get_all_variables_inv _ _ H) as [ts [G [_ [[W T] S]]]].
  exists ts. auto.
Qed.

End Entries.


(** ** The configuration object across calls *)

Section Workflow.

Context {so : SetOrder}.

Lemma no_member_nil {A : Type} (l : list A) : (forall x, ~ In x l) -> l = [].
Proof. destruct l as [|a t]; [reflexivity|]. intros H. destruct (H a). now left. Qed.

Lemma fold_dict_set_keys {V : Type} (f : string -> V) (todo : list string)
    (d : dict V) :
  NoDup (keys d ++ todo) ->
  keys (fold_left (fun ns key => dict_set ns key (f key)) todo d) = keys d ++ todo.
Proof.
  revert d. induction todo as [|a rest IH]; intros d ND; simpl.
  - now rewrite app_nil_r.
  - assert (N : ~ In a (keys d)).
    { intros I. apply NoDup_remove_2 in ND. apply ND, in_or_app. now left. }
    rewrite IH; rewrite dict_set_keys, (proj2 (mem_false _ _) N).
    + now rewrite <- app_assoc.
    + rewrite <- app_assoc. exact ND.
Qed.

Lemma NoDup_append {A : Type} (l l' : list A) :
  NoDup l -> NoDup l' -> (forall x, In x l -> ~ In x l') -> NoDup (l ++ l').
Proof.
  induction 1 as [|a t N ND IH]; simpl; intros ND' D; [exact ND'|].
  constructor.
  - intros I. apply in_app_or in I. destruct I as [I|I]; [tauto|].
    exact (D a (or_introl eq_refl) I).
  - apply IH; [exact ND'|]. intros x I. apply D. now right.
Qed.

(** X12. A call that adds categories appends them, in the order the added
    set is walked, after the categories ranked before, which keep their
    place; the categories stay pairwise distinct and the variables of the
    configuration are not touched. *)
Theorem update_tables_appends (self self' : config) (urls : list page)
    (added : list string) :
  dict_wf (known_ranks self) ->
  update_tables self urls = Ok (self', Some added) ->
  keys (known_ranks self') = keys (known_ranks self) ++ added /\
  dict_wf (known_ranks self') /\
  variables self' = variables self.
Proof.
  intros W H.
  destruct (update_tables_added _ _ _ _ H) as [ts [_ [Ha Hs']]].
  assert (ND : NoDup (keys (known_ranks self) ++ added)).
  { apply NoDup_append; [exact W | |].
    - rewrite Ha. apply difference_NoDup, set_of_NoDup.
    - intros x I Ix. rewrite Ha in Ix. apply difference_In in Ix.
      rewrite !set_of_In in Ix. tauto. }
  assert (K : keys (known_ranks self') = keys (known_ranks self) ++ added).
  { rewrite Hs'. unfold known_ranks at 1. cbn [tables].
    now apply (fold_dict_set_keys (new_rank _)). }
  split; [exact K|]. split.
  - unfold dict_wf. now rewrite K.
  - now rewrite Hs'.
Qed.

(** A second call finds nothing to add. *)
Lemma update_tables_settled (self self1 : config) (urls : list page)
    (r1 : option (list string)) :
  update_tables self urls = Ok (self1, r1) ->
  exists r2, update_tables self1 urls = Ok (self1, r2) /\ any_change r2 = false.
Proof.
  intros H. destruct r1 as [added|].
  - destruct (update_tables_added _ _ _ _ H) as [ts [G [_ Hs']]].
    pose proof (update_tables_keys _ _ _ _ _ H G) as Sub.
    destruct (known_ranks self1) as [|kv rest] eqn:K.
    + exists (Some []).
      assert (T : tables self1 = Some []).
      { unfold known_ranks in K. rewrite Hs' in K |- *. simpl in *.
        now rewrite K. }
      rewrite <- K in Sub.
      rewrite (update_tables_empty _ _ _ G K Sub).
      destruct self1 as [t v]. simpl in *. subst t. auto.
    + exists None. rewrite <- K in Sub.
      rewrite (update_tables_subset _ _ _ G); [auto | congruence | exact Sub].
  - pose proof (update_tables_none _ _ _ H) as ->. exists None. auto.
Qed.

(** [update_tables] reads the ranks only. *)
Lemma update_tables_same_tables (a b : config) (urls : list page)
    (r : option (list string)) :
  tables b = tables a ->
  update_tables a urls = Ok (a, r) ->
  update_tables b urls = Ok (b, r).
Proof.
  intros E. unfold update_tables, known_ranks. rewrite E.
  destruct (get_table_types urls) as [[ts|]|]; cbn [bind]; try discriminate.
  destruct (truthy _ && issubset _ _).
  - intros [= <-]. reflexivity.
  - intros [= Ea <-]. f_equal. f_equal.
    destruct a as [ta va], b as [tb vb]. simpl in *. subst tb.
    injection Ea as Et. f_equal. exact Et.
Qed.

(** The parts of a call of [update_variables] that returns. *)
Lemma update_variables_inv (self self' : config) (urls : list page)
    (added removed : dict delta) :
  update_variables self urls = Ok (self', (added, removed)) ->
  exists all_vars ranks new_map,
    get_all_variables urls = Ok all_vars /\
    tables self = Some ranks /\
    remove_duplicate_values all_vars ranks = Ok new_map /\
    added = find_difference new_map
              (match variables self with Some m => m | None => [] end) /\
    removed = find_difference
                (match variables self with Some m => m | None => [] end)
                new_map /\
    self' = (if truthy added || truthy removed
             then {| tables := tables self; variables := Some new_map |}
             else self).
Proof.
  unfold update_variables.
  destruct (get_all_variables urls) as [all_vars|]; cbn [bind]; [|discriminate].
  destruct (tables self) as [ranks|]; cbn [bind]; [|discriminate].
  destruct (remove_duplicate_values all_vars ranks) as [new_map|] eqn:R;
    cbn [bind]; [|discriminate].
  intros H. exists all_vars, ranks, new_map.
  destruct (truthy _ || truthy _) eqn:T; injection H as <- <- <-;
    rewrite T; repeat split; try reflexivity; assumption.
Qed.

Lemma difference_self (s : list string) : difference s s = [].
Proof.
  apply no_member_nil. intros x I. apply difference_In in I. tauto.
Qed.

Lemma find_difference_self (d : dict (list string)) :
  dict_wf d -> find_difference d d = [].
Proof.
  intros W. rewrite (find_difference_unfold _ _ W).
  apply no_member_nil. intros [k dl] I.
  apply filter_In in I. destruct I as [I P].
  apply in_map_iff in I. destruct I as [[k' vs] [E I]].
  simpl in E. injection E as <- <-.
  unfold non_empty, delta_of in P. simpl in P.
  rewrite (In_dict_get _ _ _ W I) in P. simpl in P.
  assert (N : difference (set_of vs) (set_of vs) = []) by apply difference_self.
  rewrite N in P. discriminate.
Qed.

(** A second call of [update_variables] finds no delta. *)
Lemma update_variables_second (self self1 : config) (urls : list page)
    (deltas : dict delta * dict delta) :
  update_variables self urls = Ok (self1, deltas) ->
  update_variables self1 urls = Ok (self1, ([], [])) /\
  tables self1 = tables self.
Proof.
  destruct deltas as [added removed]. intros H.
  destruct (update_variables_inv _ _ _ _ _ H)
    as [all_vars [ranks [new_map [G [T [R [Ea [Er Es]]]]]]]].
  destruct (truthy added || truthy removed) eqn:Ch.
  - subst self1. split; [|reflexivity].
    unfold update_variables. rewrite G. cbn [bind tables variables].
    rewrite T. cbn [bind]. rewrite R. cbn [bind].
    rewrite (find_difference_self _ (remove_duplicate_values_wf _ _ _ R)).
    reflexivity.
  - subst self1. split; [|reflexivity]. rewrite H.
    apply orb_false_iff in Ch. destruct Ch as [Ca Cr].
    apply truthy_false in Ca, Cr. now rewrite Ca, Cr.
Qed.

(** X13. After a call of [update_variables] that returns, a second call
    on the same object with the same pages reports no addition and no
    removal and leaves the configuration as it is. *)
Theorem update_variables_settles (self self1 : config) (urls : list page)
    (deltas : dict delta * dict delta) :
  update_variables self urls = Ok (self1, deltas) ->
  update_variables self1 urls = Ok (self1, ([], [])).
Proof.
  intros H. exact (proj1 (update_variables_second _ _ _ _ H)).
Qed.

(** X14. [update_variables] leaves the ranks alone; it either reports no
    delta and changes nothing, or stores a map in which no variable stands
    under two categories. *)
Theorem update_variables_stores (self self' : config) (urls : list page)
    (added removed : dict delta) :
  update_variables self urls = Ok (self', (added, removed)) ->
  tables self' = tables self /\
  ((added = [] /\ removed = [] /\ self' = self) \/
   exists new_map,
     variables self' = Some new_map /\ dict_wf new_map /\
     forall v c c', lists new_map c v -> lists new_map c' v -> c = c').
Proof.
  intros H.
  destruct (update_variables_inv _ _ _ _ _ H)
    as [all_vars [ranks [new_map [G [T [R [Ea [Er Es]]]]]]]].
  destruct (truthy added || truthy removed) eqn:Ch; subst self'.
  - split; [reflexivity|]. right. exists new_map.
    split; [reflexivity|].
    split; [exact (remove_duplicate_values_wf _ _ _ R)|].
    destruct (get_all_variables_inv _ _ G) as [ts [_ [_ [[W _] _]]]].
    destruct (remove_duplicate_values_ok _ _ _ W R) as [_ [_ Spec]].
    intros v c c' L L'. apply Spec in L, L'.
    destruct L as [_ O], L' as [_ O'].
    destruct (owner all_vars ranks v) as [o|]; [|discriminate].
    simpl in O, O'. apply String.eqb_eq in O, O'. congruence.
  - split; [reflexivity|]. left.
    apply orb_false_iff in Ch. destruct Ch as [Ca Cr].
    apply truthy_false in Ca, Cr. auto.
Qed.

(** X15. Two maps show no delta in either direction exactly when they
    list the same variables under the same categories. *)
Theorem no_delta_iff_same_listing (a b : dict (list string)) :
  dict_wf a ->
  dict_wf b ->
  (find_difference a b = [] /\ find_difference b a = [] <->
   forall c v, lists a c v <-> lists b c v).
Proof.
  intros Wa Wb.
  assert (One : forall x y, dict_wf x ->
            (find_difference x y = [] <->
             forall c v, lists x c v -> lists y c v)).
  { intros x y Wx. destruct (find_difference_spec x y Wx) as [S NE]. split.
    - intros E c v [vs [G I]].
      destruct (dict_get y c) as [ws|] eqn:Gy.
      + destruct (in_dec string_dec v ws) as [Iw|Nw]; [now exists ws|].
        exfalso. destruct (proj2 (S c v)) as [d [F _]].
        * exists vs. split; [exact G|]. split; [exact I|].
          intros ws0 E0. rewrite Gy in E0. now injection E0 as <-.
        * rewrite E in F. discriminate.
      + exfalso. destruct (proj2 (S c v)) as [d [F _]].
        * exists vs. split; [exact G|]. split; [exact I|].
          intros ws0 E0. rewrite Gy in E0. discriminate.
        * rewrite E in F. discriminate.
    - intros Sub. destruct (find_difference x y) as [|[k d] rest] eqn:E;
        [reflexivity|]. exfalso.
      assert (F : dict_get ((k, d) :: rest) k = Some d)
        by (simpl; now rewrite String.eqb_refl).
      pose proof (NE k d F) as Ne.
      destruct (elements d) as [|v vs] eqn:El; [congruence|].
      destruct (proj1 (S k v)) as [us [G [I Not]]].
      + exists d. split; [exact F | rewrite El; now left].
      + destruct (Sub k v) as [ws [Gy Iw]]; [now exists us|].
        exact (Not ws Gy Iw). }
  rewrite (One a b Wa), (One b a Wb). split.
  - intros [Hab Hba] c v. split; auto.
  - intros H. split; intros c v; apply H.
Qed.

Lemma cat_list_of_raises_key (variables : dict (list string)) (var : string)
    (categories cat_list : list string) (e : exception) :
  cat_list_of variables var categories cat_list = Raise e ->
  exists k, e = KeyError k.
Proof.
  revert cat_list. induction categories as [|cat rest IH]; intros cat_list;
    cbn [cat_list_of]; [discriminate|].
  unfold getitem. destruct (dict_get variables cat); cbn [bind].
  - apply IH.
  - intros [= <-]. eauto.
Qed.

Lemma index_variables_raises (variables : dict (list string))
    (categories unique_vars : list string) (acc : dict (list string))
    (e : exception) :
  index_variables variables categories unique_vars acc = Raise e ->
  exists k, e = KeyError k.
Proof.
  revert acc. induction unique_vars as [|var rest IH]; intros acc;
    cbn [index_variables]; [discriminate|].
  destruct (cat_list_of variables var categories []) eqn:C; cbn [bind].
  - apply IH.
  - intros [= <-]. exact (cat_list_of_raises_key _ _ _ _ _ C).
Qed.

Lemma collect_raises (var_map : dict (option string)) (cat : string)
    (vars : list string) (output : dict (list string)) (e : exception) :
  collect var_map cat vars output = Raise e -> exists k, e = KeyError k.
Proof.
  revert output. induction vars as [|v rest IH]; intros output;
    cbn [collect]; [discriminate|].
  unfold getitem. destruct (dict_get var_map v); cbn [bind].
  - apply IH.
  - intros [= <-]. eauto.
Qed.

Lemma build_output_raises (var_map : dict (option string))
    (items : list (string * list string)) (output : dict (list string))
    (e : exception) :
  build_output var_map items output = Raise e -> exists k, e = KeyError k.
Proof.
  revert output. induction items as [|[cat vars] rest IH]; intros output;
    cbn [build_output]; [discriminate|].
  destruct (collect var_map cat vars output) eqn:C; cbn [bind].
  - apply IH.
  - intros [= <-]. exact (collect_raises _ _ _ _ _ C).
Qed.

(** X16. After [update_tables] has returned, all categories the pages
    show are ranked in the object: [update_variables], called next on the
    same pages, does not raise the no-assigned-ranks error. *)
Theorem ranks_cover_after_update_tables (self self' : config)
    (urls : list page) (r : option (list string)) (named : list string) :
  update_tables self urls = Ok (self', r) ->
  update_variables self' urls <> Raise (Exception (NoAssignedRanks named)).
Proof.
  intros H.
  assert (Cover : exists ts ranks,
            get_table_types urls = Ok (Some ts) /\
            tables self' = Some ranks /\
            forall c, In c (map snd ts) -> In c (keys ranks)).
  { destruct r as [added|].
    - destruct (update_tables_added _ _ _ _ H) as [ts [G [_ Hs']]].
      pose proof (update_tables_keys _ _ _ _ _ H G) as Sub.
      exists ts. rewrite Hs' in *. cbn [tables known_ranks] in *.
      eexists. split; [exact G|]. split; [reflexivity | exact Sub].
    - pose proof (update_tables_none _ _ _ H) as ->.
      revert H. unfold update_tables, known_ranks.
      destruct (get_table_types urls) as [[ts|]|]; cbn [bind];
        try discriminate.
      destruct (tables self) as [ranks|]; [|simpl; discriminate].
      destruct (truthy ranks && issubset _ _) eqn:T; [|discriminate].
      intros _. apply andb_true_iff in T. destruct T as [_ S].
      exists ts, ranks. split; [reflexivity|]. split; [reflexivity|].
      intros c I. rewrite issubset_spec in S.
      rewrite <- set_of_In in I. apply S in I. now rewrite set_of_In in I. }
  destruct Cover as [ts [ranks [G [T Sub]]]].
  unfold update_variables.
  destruct (get_all_variables urls) as [all_vars|e] eqn:A; cbn [bind].
  - rewrite T. cbn [bind].
    destruct (get_all_variables_inv _ _ A) as [ts' [G' [_ [[_ Tidy] S]]]].
    rewrite G in G'. injection G' as <-.
    assert (Guard : forall c, In c (keys all_vars) -> In c (keys ranks)).
    { intros c I. apply Sub.
      destruct (dict_get all_vars c) as [vs|] eqn:Gc;
        [|apply dict_get_None in Gc; tauto].
      destruct (Tidy _ _ Gc) as [_ NE].
      destruct vs as [|v vs]; [congruence|].
      destruct (proj1 (S c v)) as [t [It _]];
        [exists (v :: vs); split; [exact Gc | now left]|].
      change c with (snd (t, c)). now apply in_map. }
    unfold remove_duplicate_values.
    apply ranked_guard in Guard. rewrite Guard. cbn [negb].
    destruct (index_variables _ _ _ _) as [vc|e] eqn:Ix; cbn [bind].
    + destruct (build_output _ _ _) as [out|e] eqn:B; cbn [bind].
      * destruct (_ || _); discriminate.
      * destruct (build_output_raises _ _ _ _ B) as [k ->]. discriminate.
    + destruct (index_variables_raises _ _ _ _ _ Ix) as [k ->]. discriminate.
  - unfold get_all_variables in A. rewrite G in A. cbn [bind] in A.
    destruct ts; [injection A as <-; discriminate | discriminate A].
Qed.

End Workflow.


(** ** Exceptions of remove_duplicate_values, and the script *)

Section Script.

Context {so : SetOrder}.

Lemma cat_list_of_raises_missing (variables : dict (list string)) (var : string)
    (categories cat_list : list string) (e : exception) :
  cat_list_of variables var categories cat_list = Raise e ->
  exists k, e = KeyError k /\ In k categories /\ ~ In k (keys variables).
Proof.
  revert cat_list. induction categories as [|cat rest IH]; intros cat_list;
    cbn [cat_list_of]; [discriminate|].
  unfold getitem. destruct (dict_get variables cat) eqn:G; cbn [bind].
  - intros H. destruct (IH _ H) as [k [E [I N]]].
    exists k. split; [exact E|]. split; [now right | exact N].
  - intros [= <-]. exists cat. split; [reflexivity|].
    split; [now left | now apply dict_get_None].
Qed.

Lemma index_variables_raises_missing (variables : dict (list string))
    (categories unique_vars : list string) (acc : dict (list string))
    (e : exception) :
  index_variables variables categories unique_vars acc = Raise e ->
  exists k, e = KeyError k /\ In k categories /\ ~ In k (keys variables).
Proof.
  revert acc. induction unique_vars as [|var rest IH]; intros acc;
    cbn [index_variables]; [discriminate|].
  destruct (cat_list_of variables var categories []) eqn:C; cbn [bind].
  - apply IH.
  - intros [= <-]. exact (cat_list_of_raises_missing _ _ _ _ _ C).
Qed.

(** X17. [remove_duplicate_values] raises nothing but the configuration
    error, which it raises when an observed category has no rank, and
    [KeyError] for a ranked category that was not observed. *)
Theorem remove_duplicate_values_raises_only (variables : dict (list string))
    (ranks : dict Z) (e : exception) :
  remove_duplicate_values variables ranks = Raise e ->
  (exists named, e = Exception (NoAssignedRanks named) /\
                 exists c, In c (keys variables) /\ ~ In c (keys ranks)) \/
  (exists k, e = KeyError k /\ In k (keys ranks) /\ ~ In k (keys variables) /\
             forall c, In c (keys variables) -> In c (keys ranks)).
Proof.
  unfold remove_duplicate_values.
  destruct (issubset _ _) eqn:G; cbn [negb].
  - pose proof (proj1 (ranked_guard _ _) G) as Sub.
    destruct (index_variables _ _ _ _) as [vc|e'] eqn:Ix; cbn [bind].
    + destruct (index_variables_ok _ _ _ _ _ Ix) as [-> _].
      match goal with |- context [build_output ?m _ _] =>
        destruct (build_output_spec m variables []) as [out [E _]] end.
      * intros cat vars v I Iv. eexists. apply var_map_lookup.
        exact (In_values _ _ _ _ I Iv).
      * rewrite E. discriminate.
    + intros [= <-]. right.
      destruct (index_variables_raises_missing _ _ _ _ _ Ix) as [k [-> [I N]]].
      exists k. auto.
  - intros [= <-]. left. eexists. split; [reflexivity|].
    destruct (all_or_missing (keys variables) (keys ranks)) as [All|Ex];
      [|exact Ex].
    pose proof (proj2 (ranked_guard _ _) All) as T. congruence.
Qed.

(** X18. A run whose save prompt is not answered with [Y] or [y] ends
    with the settings file as it found it, unless an exception ends it
    (which writes nothing either). *)
Theorem main_keeps_file_unless_confirmed (file : option config)
    (urls : list page) (choice : string) :
  confirmed choice = false ->
  main file urls choice = Ok file \/
  exists e, main file urls choice = Raise e.
Proof.
  intros C. unfold main. rewrite C.
  destruct (update_tables (init file) urls) as [[config1 changes]|e];
    cbn [bind]; [|right; now exists e].
  destruct (any_change changes); [now left|].
  destruct (update_variables config1 urls) as [[config2 [added removed]]|e];
    cbn [bind]; [|right; now exists e].
  destruct (truthy added || truthy removed); now left.
Qed.

(** A run that finds nothing to add and no delta ends without a prompt. *)
Lemma main_quiet (file : option config) (urls : list page)
    (cfgA cfgB : config) (r : option (list string)) (a rm : dict delta)
    (choice : string) :
  update_tables (init file) urls = Ok (cfgA, r) ->
  any_change r = false ->
  update_variables cfgA urls = Ok (cfgB, (a, rm)) ->
  truthy a || truthy rm = false ->
  main file urls choice = Ok file.
Proof.
  intros U A V D. unfold main. rewrite U. cbn [bind]. rewrite A, V.
  cbn [bind]. now rewrite D.
Qed.

(** X19. Two runs on the same pages whose prompts are answered with [Y]
    or [y] settle the settings file: any further run on these pages ends
    with the file unchanged, whatever the answer. *)
Theorem main_settles_after_two_runs (file f1 f2 : option config)
    (urls : list page) (c1 c2 c3 : string) :
  confirmed c1 = true ->
  confirmed c2 = true ->
  main file urls c1 = Ok f1 ->
  main f1 urls c2 = Ok f2 ->
  main f2 urls c3 = Ok f2.
Proof.
  intros C1 C2 R1 R2.
  (* a file whose run is quiet stays as it is *)
  assert (Quiet : forall f cfg r cfgB,
            init f = cfg ->
            update_tables cfg urls = Ok (cfg, r) -> any_change r = false ->
            update_variables cfg urls = Ok (cfgB, ([], [])) ->
            forall c, main f urls c = Ok f).
  { intros f cfg r cfgB <- U A V c.
    exact (main_quiet f urls _ _ _ _ _ c U A V eq_refl). }
  revert R1. unfold main at 1. rewrite C1.
  destruct (update_tables (init file) urls) as [[cfg1 ch1]|] eqn:U1;
    cbn [bind]; [|discriminate].
  destruct (update_tables_settled _ _ _ _ U1) as [r2 [U2 A2]].
  destruct (any_change ch1) eqn:A1.
  - (* the first run saved new ranks *)
    intros [= <-]. revert R2. unfold main at 1. rewrite C2.
    change (init (save cfg1)) with cfg1. rewrite U2. cbn [bind]. rewrite A2.
    destruct (update_variables cfg1 urls) as [[cfg2 [a rm]]|] eqn:V;
      cbn [bind]; [|discriminate].
    destruct (update_variables_second _ _ _ _ V) as [V2 T2].
    destruct (truthy a || truthy rm) eqn:D; intros [= <-].
    + apply (Quiet (save cfg2) cfg2 r2 cfg2);
        [reflexivity | | exact A2 | exact V2].
      exact (update_tables_same_tables _ _ _ _ T2 U2).
    + apply orb_false_iff in D. destruct D as [Da Dr].
      apply truthy_false in Da, Dr. subst a rm.
      exact (Quiet (save cfg1) cfg1 r2 cfg2 eq_refl U2 A2 V c3).
  - (* the first run went on to the variables *)
    destruct (update_variables cfg1 urls) as [[cfg1' [a rm]]|] eqn:V;
      cbn [bind]; [|discriminate].
    destruct (update_variables_second _ _ _ _ V) as [V2 T2].
    pose proof (update_tables_same_tables _ _ _ _ T2 U2) as U2'.
    destruct (truthy a || truthy rm) eqn:D; intros [= <-].
    + assert (Q : forall c, main (save cfg1') urls c = Ok (save cfg1'))
        by exact (Quiet (save cfg1') cfg1' r2 cfg1' eq_refl U2' A2 V2).
      rewrite Q in R2. injection R2 as <-. apply Q.
    + assert (Q : forall c, main file urls c = Ok file)
        by (intros c; exact (main_quiet file urls _ _ _ _ _ c U1 A1 V D)).
      rewrite Q in R2. injection R2 as <-. apply Q.
Qed.

End Script.

(** ** Instances of the further properties *)

Section FurtherExamples.

Import Samples.

Ltac distinct_keys :=
  unfold dict_wf; simpl;
  repeat (constructor; [simpl; intuition discriminate|]); constructor.

Lemma select_top_priority_member_witness :
  In "passing" ["passing"; "misc"].
Proof.
  apply (select_top_priority_member ["passing"; "misc"]
           ["summary"; "misc"; "passing"] "passing").
  reflexivity.
Defined.

Lemma select_top_priority_last_witness :
  exists c,
    select_top_priority ["passing"; "misc"] ["summary"; "misc"; "passing"]
    = Some c /\
    In c ["passing"; "misc"] /\
    forall x, In x ["passing"; "misc"] -> x <> c ->
              before x c ["summary"; "misc"; "passing"].
Proof.
  apply (select_top_priority_last ["passing"; "misc"]
           ["summary"; "misc"; "passing"]).
  - discriminate.
  - constructor; [simpl; intuition discriminate|].
    constructor; [simpl; tauto | constructor].
  - intros x [<-|[<-|[]]]; simpl; auto.
Defined.

Lemma remove_duplicate_values_returns_iff_witness :
  (exists output,
      remove_duplicate_values (so := insertion_order) seven_variables seven_ranks
      = Ok output) <->
  (forall c, In c (keys seven_variables) -> In c (keys seven_ranks)) /\
  (concat (values seven_variables) = [] \/
   forall c, In c (keys seven_ranks) -> In c (keys seven_variables)).
Proof.
  apply (remove_duplicate_values_returns_iff (so := insertion_order)
           seven_variables seven_ranks).
  distinct_keys.
Defined.

Lemma remove_duplicate_values_keeps_order_witness :
  seven_output =
  filter (fun kv => truthy (snd kv))
    (map (fun kv =>
            (fst kv,
             filter (fun v => owner_is (owner seven_variables seven_ranks v)
                                (fst kv))
               (snd kv)))
       seven_variables).
Proof.
  apply (remove_duplicate_values_keeps_order (so := insertion_order)
           seven_variables seven_ranks seven_output).
  - distinct_keys.
  - reflexivity.
Defined.

Lemma single_category_variable_stays_witness :
  lists [("A", ["y"]); ("B", ["x"])] "A" "y".
Proof.
  apply (single_category_variable_stays (so := insertion_order)
           tie_variables tie_ranks [("A", ["y"]); ("B", ["x"])] "A" "y").
  - distinct_keys.
  - distinct_keys.
  - reflexivity.
  - exists ["x"; "y"]. split; [reflexivity | simpl; auto].
  - intros c' [vs [G I]]. simpl in G.
    destruct (String.eqb_spec c' "A") as [->|_]; [reflexivity|].
    destruct (String.eqb c' "B"); [|discriminate].
    injection G as <-. destruct I as [I|[]]. discriminate I.
Defined.

Lemma equal_ranks_last_wins_witness :
  before "A" "B" (keys tie_ranks).
Proof.
  apply (equal_ranks_last_wins (so := insertion_order)
           tie_variables tie_ranks [("A", ["y"]); ("B", ["x"])] "x" "B" "A").
  - distinct_keys.
  - distinct_keys.
  - reflexivity.
  - reflexivity.
  - exists ["x"]. split; [reflexivity | now left].
  - exists ["x"; "y"]. split; [reflexivity | now left].
  - discriminate.
  - reflexivity.
Defined.

Lemma gt_times_0_7_at_least_witness : 7 * 90 <= 10 * 63.
Proof.
  apply (gt_times_0_7_at_least 63 90); reflexivity.
Defined.

Lemma get_table_types_entries_witness :
  map fst match_types = concat (map all_tables [match_page]) /\
  (forall p, In p [match_page] ->
             all_tables p <> [] /\ 2 <= List.length (squad_ids p)) /\
  (forall t l, In (t, l) match_types ->
               exists p, In p [match_page] /\ In t (all_tables p) /\
                         table_label (squad_ids p) t = Ok l).
Proof.
  apply (get_table_types_entries [match_page] match_types). reflexivity.
Defined.

Lemma short_squad_list_raises_witness :
  get_table_types ([match_page] ++ one_squad_page :: [bare_page])
  = Raise IndexError.
Proof.
  apply (short_squad_list_raises [match_page] [bare_page] one_squad_page).
  - intros q [<-|[]]. split; [discriminate | simpl; lia].
  - discriminate.
  - simpl. lia.
Defined.

Lemma table_label_margins_witness :
  (forall c r, list_ascii_of_string "summary" = c :: r ->
               ascii_mem c label_margin = false) /\
  (forall c r, list_ascii_of_string "summary" = r ++ [c] ->
               ascii_mem c label_margin = false).
Proof.
  apply (table_label_margins ["18bb7c10"; "5bfb9659"]
           {| table_id := "stats_18bb7c10_summary";
              header := ["player"; "goals"] |} "summary").
  reflexivity.
Defined.

Lemma get_all_variables_collects_witness :
  exists ts,
    get_table_types [match_page] = Ok (Some ts) /\
    dict_wf match_variables /\
    (forall c vs, dict_get match_variables c = Some vs ->
                  NoDup vs /\ vs <> []) /\
    (forall c v, lists match_variables c v <->
                 exists t, In (t, c) ts /\ In v (header t)).
Proof.
  apply (get_all_variables_collects [match_page] match_variables).
  reflexivity.
Defined.

Lemma update_tables_appends_witness :
  keys (known_ranks two_ranks_more) = keys (known_ranks two_ranks) ++ ["misc"] /\
  dict_wf (known_ranks two_ranks_more) /\
  variables two_ranks_more = variables two_ranks.
Proof.
  apply (update_tables_appends (so := insertion_order) two_ranks
           two_ranks_more [match_page] ["misc"]).
  - distinct_keys.
  - reflexivity.
Defined.

Lemma update_variables_settles_witness :
  update_variables (so := insertion_order) three_ranks_mapped [match_page]
  = Ok (three_ranks_mapped, ([], [])).
Proof.
  apply (update_variables_settles (so := insertion_order) three_ranks
           three_ranks_mapped [match_page]
           ([("summary", DList ["player"; "goals"]); ("misc", DList ["fouls"]);
             ("passing", DList ["cmp"])], [])).
  reflexivity.
Defined.

Lemma update_variables_stores_witness :
  tables three_ranks_mapped = tables three_ranks /\
  (([("summary", DList ["player"; "goals"]); ("misc", DList ["fouls"]);
     ("passing", DList ["cmp"])] = [] /\
    @nil (string * delta) = [] /\ three_ranks_mapped = three_ranks) \/
   exists new_map,
     variables three_ranks_mapped = Some new_map /\ dict_wf new_map /\
     forall v c c', lists new_map c v -> lists new_map c' v -> c = c').
Proof.
  apply (update_variables_stores (so := insertion_order) three_ranks
           three_ranks_mapped [match_page]).
  reflexivity.
Defined.

Lemma no_delta_iff_same_listing_witness :
  find_difference (so := insertion_order) match_map match_map = [] /\
  find_difference (so := insertion_order) match_map match_map = [] <->
  forall c v, lists match_map c v <-> lists match_map c v.
Proof.
  apply (no_delta_iff_same_listing (so := insertion_order) match_map match_map);
    distinct_keys.
Defined.

Lemma ranks_cover_after_update_tables_witness :
  update_variables (so := insertion_order) three_ranks [match_page]
  <> Raise (Exception (NoAssignedRanks [])).
Proof.
  apply (ranks_cover_after_update_tables (so := insertion_order) empty_config
           three_ranks [match_page] (Some ["summary"; "misc"; "passing"]) []).
  reflexivity.
Defined.

Lemma remove_duplicate_values_raises_only_witness :
  (exists named,
      Exception (NoAssignedRanks ["summary"])
      = Exception (NoAssignedRanks named) /\
      exists c, In c (keys [("passing", ["cmp"])]) /\
                ~ In c (keys [("summary", 1%Z)])) \/
  (exists k,
      Exception (NoAssignedRanks ["summary"]) = KeyError k /\
      In k (keys [("summary", 1%Z)]) /\
      ~ In k (keys [("passing", ["cmp"])]) /\
      forall c, In c (keys [("passing", ["cmp"])]) ->
                In c (keys [("summary", 1%Z)])).
Proof.
  apply (remove_duplicate_values_raises_only (so := insertion_order)
           [("passing", ["cmp"])] [("summary", 1%Z)]).
  reflexivity.
Defined.

Lemma main_keeps_file_unless_confirmed_witness :
  main (so := insertion_order) None [match_page] "n" = Ok None \/
  exists e, main (so := insertion_order) None [match_page] "n" = Raise e.
Proof.
  apply (main_keeps_file_unless_confirmed (so := insertion_order) None
           [match_page] "n").
  reflexivity.
Defined.

Lemma main_settles_after_two_runs_witness :
  main (so := insertion_order) (Some three_ranks_mapped) [match_page] "n"
  = Ok (Some three_ranks_mapped).
Proof.
  apply (main_settles_after_two_runs (so := insertion_order) None
           (Some three_ranks) (Some three_ranks_mapped) [match_page]
           "Y" "y" "n"); reflexivity.
Defined.

End FurtherExamples.

(** ** New categories and table-less pages, on any input *)

Section Outcomes.

Context {so : SetOrder}.

(** C7, as the code has it.  Whenever the pages yield a table mapping and
    either nothing is ranked yet or some observed category has no rank,
    [update_tables] returns an added-set and stores ranks: the added
    categories are the observed ones without a rank; summary gets the
    number [n] of observed categories, misc gets [n - 1], any other added
    category gets [1]; every rank stored before is kept and the variables
    are not touched.  Summary ranks strictly highest and misc at least as
    high as the others among the added categories, which are all the
    ranked categories when nothing was ranked before. *)
Theorem update_tables_ranks_new_categories (self : config) (urls : list page)
    (ts : list (table * string)) :
  get_table_types urls = Ok (Some ts) ->
  known_ranks self = [] \/
  (exists c, In c (map snd ts) /\ ~ In c (keys (known_ranks self))) ->
  exists self' added,
    update_tables self urls = Ok (self', Some added) /\
    variables self' = variables self /\
    let n := Z.of_nat (List.length (set_of (map snd ts))) in
    let rank := dict_get (known_ranks self') in
    (forall c, In c added <->
               In c (map snd ts) /\ ~ In c (keys (known_ranks self))) /\
    (forall c, In c (keys (known_ranks self')) ->
               In c added \/ In c (keys (known_ranks self))) /\
    (In "summary" added -> rank "summary" = Some n) /\
    (In "misc" added -> rank "misc" = Some (n - 1)%Z) /\
    (forall c, In c added -> c <> "summary" -> c <> "misc" ->
               rank c = Some 1%Z) /\
    (forall c, In c (keys (known_ranks self)) ->
               rank c = dict_get (known_ranks self) c) /\
    (forall c r, In "summary" added -> In c added -> c <> "summary" ->
                 rank c = Some r -> (r < n)%Z) /\
    (forall c r, In "misc" added -> In c added -> c <> "summary" ->
                 rank c = Some r -> (r <= n - 1)%Z).
Proof.
  intros G New.
  assert (Test : truthy (known_ranks self)
                 && issubset (set_of (map snd ts))
                      (set_of (keys (known_ranks self))) = false).
  { destruct New as [E|[c [I N]]].
    - now rewrite E.
    - apply andb_false_iff. right.
      destruct (issubset _ _) eqn:S; [|reflexivity].
      exfalso. apply N. rewrite issubset_spec in S.
      rewrite <- set_of_In in I. apply S in I. now rewrite set_of_In in I. }
  assert (H : exists self' added,
            update_tables self urls = Ok (self', Some added)).
  { unfold update_tables. rewrite G. cbn [bind]. rewrite Test. eauto. }
  destruct H as [self' [added H]]. exists self', added.
  split; [exact H|].
  split.
  { destruct (update_tables_added _ _ _ _ H) as [ts0 [_ [_ Hs]]].
    rewrite Hs. reflexivity. }
  destruct (update_tables_new_ranks _ _ _ _ H) as [ts' [G' R]].
  rewrite G in G'. injection G' as <-. exact R.
Qed.

(** The second call returns the empty set, not [None], when the first
    one left no rank at all. *)
Lemma update_tables_again_unranked (self self1 : config) (urls : list page)
    (r1 : option (list string)) :
  update_tables self urls = Ok (self1, r1) ->
  known_ranks self1 = [] ->
  update_tables self1 urls = Ok (self1, Some []).
Proof.
  intros H K. destruct r1 as [added|].
  - destruct (update_tables_added _ _ _ _ H) as [ts [G [_ Hs']]].
    pose proof (update_tables_keys _ _ _ _ _ H G) as Sub.
    assert (T : tables self1 = Some []).
    { unfold known_ranks in K. rewrite Hs' in K |- *. simpl in *.
      now rewrite K. }
    rewrite (update_tables_empty _ _ _ G K Sub).
    destruct self1 as [t v]. simpl in *. now subst t.
  - pose proof (update_tables_none _ _ _ H) as ->.
    revert H. unfold update_tables. rewrite K.
    destruct (get_table_types urls) as [[ts|]|]; cbn [bind]; discriminate.
Qed.

Lemma get_table_types_from_none (urls : list page)
    (acc : list (table * string)) :
  get_table_types_from urls acc = Ok None <->
  exists before_p p after_p,
    urls = before_p ++ p :: after_p /\ all_tables p = [] /\
    forall q, In q before_p ->
              all_tables q <> [] /\ 2 <= List.length (squad_ids q).
Proof.
  revert acc.
  induction urls as [|p rest IH]; intros acc; cbn [get_table_types_from].
  - split; [discriminate|].
    intros [[|? ?] [? [? [E _]]]]; discriminate.
  - destruct (all_tables p) as [|t ts] eqn:A.
    + split; [|reflexivity]. intros _. exists [], p, rest.
      split; [reflexivity|]. split; [exact A | intros q []].
    + split.
      * destruct (label_tables (squad_ids p) (t :: ts) acc) as [r|] eqn:L;
          cbn [bind]; [|discriminate].
        intros H. apply IH in H.
        destruct H as [pre [p0 [post [-> [A0 Pre]]]]].
        exists (p :: pre), p0, post.
        split; [reflexivity|]. split; [exact A0|].
        intros q [<-|I]; [|auto]. rewrite A. split; [discriminate|].
        destruct (label_tables_inv _ _ _ _ L) as [_ [_ [_ [_ Ids]]]].
        apply Ids. discriminate.
      * intros [[|q pre] [p0 [post [E [A0 Pre]]]]]; simpl in E;
          injection E as E1 E2; [subst p0; congruence|].
        subst q rest.
        destruct (Pre p (or_introl eq_refl)) as [_ Ids].
        destruct (label_tables_ok (squad_ids p) (t :: ts) acc Ids) as [ls [L _]].
        rewrite L. cbn [bind]. apply IH.
        exists pre, p0, post. split; [reflexivity|]. split; [exact A0|].
        intros x I. apply Pre. now right.
Qed.

Lemma label_tables_raises (ids : list string) (ts : list table)
    (acc : list (table * string)) (e : exception) :
  label_tables ids ts acc = Raise e -> e = IndexError.
Proof.
  revert acc. induction ts as [|t rest IH]; intros acc; cbn [label_tables];
    [discriminate|].
  unfold table_label. destruct ids as [|i0 [|i1 ids]]; cbn [bind];
    try (now intros [= <-]).
  apply IH.
Qed.

(** Category discovery raises [IndexError] only. *)
Lemma get_table_types_from_raises (urls : list page)
    (acc : list (table * string)) (e : exception) :
  get_table_types_from urls acc = Raise e -> e = IndexError.
Proof.
  revert acc.
  induction urls as [|p rest IH]; intros acc; cbn [get_table_types_from];
    [discriminate|].
  destruct (all_tables p) as [|t ts]; [discriminate|].
  destruct (label_tables (squad_ids p) (t :: ts) acc) as [r|e'] eqn:L;
    cbn [bind]; [apply IH|].
  intros [= <-]. exact (label_tables_raises _ _ _ _ L).
Qed.

(** C9, as the code has it.  [get_table_types] returns [None] exactly when
    some page has no stats table while every page before it has stats
    tables and names two squads; what that page and the pages after it
    hold plays no role, and the tables found before are given up.
    [get_all_variables] raises the no-valid-stats-tables error exactly
    then, or when there is no page at all. *)
Theorem first_bare_page_voids_batch (urls : list page) :
  (get_table_types urls = Ok None <->
   exists before_p p after_p,
     urls = before_p ++ p :: after_p /\ all_tables p = [] /\
     forall q, In q before_p ->
               all_tables q <> [] /\ 2 <= List.length (squad_ids q)) /\
  (get_all_variables urls = Raise (Exception NoValidStatsTables) <->
   urls = [] \/
   exists before_p p after_p,
     urls = before_p ++ p :: after_p /\ all_tables p = [] /\
     forall q, In q before_p ->
               all_tables q <> [] /\ 2 <= List.length (squad_ids q)).
Proof.
  pose proof (get_table_types_from_none urls []) as N.
  fold (get_table_types urls) in N.
  split; [exact N|].
  unfold get_all_variables.
  destruct (get_table_types urls) as [[ts|]|e] eqn:G; cbn [bind].
  - assert (No : ~ exists before_p p after_p,
              urls = before_p ++ p :: after_p /\ all_tables p = [] /\
              forall q, In q before_p ->
                        all_tables q <> [] /\ 2 <= List.length (squad_ids q)).
    { intros Ex. apply N in Ex. discriminate. }
    destruct (get_table_types_from_inv _ _ _ G) as [ls [E [M [Pages _]]]].
    simpl in E. subst ls.
    destruct ts as [|entry ts].
    + split; [intros _; left | reflexivity].
      destruct urls as [|p rest]; [reflexivity|]. exfalso.
      destruct (Pages p (or_introl eq_refl)) as [A _].
      simpl in M. destruct (all_tables p); [congruence | discriminate].
    + split; [discriminate|].
      intros [->|Ex]; [discriminate G | tauto].
  - split; [intros _; right; now apply N | reflexivity].
  - split; [intros [= ->]|].
    + pose proof (get_table_types_from_raises _ _ _ G) as F. discriminate F.
    + intros [->|Ex]; [discriminate G|]. apply N in Ex. discriminate.
Qed.

End Outcomes.

Section OutcomesExamples.

Import Samples.

(** Counterexample to C7: passing is stored with rank 5; summary is new and
    gets rank 3, the number of observed categories, which is not the
    highest rank of the configuration. *)
Lemma stored_rank_above_summary :
  update_tables (so := insertion_order) passing_five [match_page]
  = Ok (passing_five_more, Some ["summary"; "misc"]) /\
  dict_get (known_ranks passing_five_more) "summary" = Some 3%Z /\
  dict_get (known_ranks passing_five_more) "passing" = Some 5%Z /\
  (3 < 5)%Z.
Proof. repeat split. Qed.

(** Witness of C7 as amended: summary and passing are stored, misc is
    new. *)
Lemma update_tables_ranks_new_categories_witness :
  update_tables (so := insertion_order) two_ranks [match_page]
  = Ok (two_ranks_more, Some ["misc"]) /\
  dict_get (known_ranks two_ranks_more) "misc" = Some 2%Z /\
  dict_get (known_ranks two_ranks_more) "summary" = Some 2%Z /\
  dict_get (known_ranks two_ranks_more) "passing" = Some 1%Z.
Proof.
  destruct (update_tables_ranks_new_categories (so := insertion_order)
              two_ranks [match_page] match_types) as [self' [added [H R]]].
  - reflexivity.
  - right. exists "misc". split; [simpl; auto|].
    simpl. intuition discriminate.
  - assert (E : update_tables (so := insertion_order) two_ranks [match_page]
                = Ok (two_ranks_more, Some ["misc"])) by reflexivity.
    rewrite E in H. injection H as <- <-.
    destruct R as [_ [_ [_ [_ [Hm [_ [Keep _]]]]]]].
    split; [exact E|].
    split; [apply Hm; now left|].
    split; [apply Keep; simpl; auto | apply Keep; simpl; auto].
Defined.

(** The table-less page needs no squad links, and the pages after it are
    not read. *)
Example bare_pages_return_none :
  get_table_types [match_page; nothing_page; one_squad_page] = Ok None.
Proof. reflexivity. Qed.

End OutcomesExamples.
